(** * NumberConverter (convertNumbers.py): binary and hexadecimal encodings

    A shallow embedding of the [NumberConverter] class of
    [src/convertNumbers.py].  Python integers are [Z], strings are lists of
    characters, exceptions are an [outcome] type, and the methods of the
    class are computations over the object's three fields. *)

From Equations Require Import Equations.
From Stdlib Require Import ZArith Ascii String List Bool Arith Lia.
From Stdlib Require Sorted.
Import ListNotations.
Local Open Scope Z_scope.

(* ================================================================== *)
(** ** Python values: strings, exceptions, sequence operations          *)
(* ================================================================== *)

Definition str := list ascii.

(** A string literal of the source. *)
Definition lit (s : string) : str := list_ascii_of_string s.

Inductive exn : Type :=
| ValueError
| IndexError
| FileNotFoundError.

Inductive outcome (A : Type) : Type :=
| Ok (a : A)
| Raise (e : exn).
Arguments Ok {A} a.
Arguments Raise {A} e.

Definition rbind {A B} (m : outcome A) (k : A -> outcome B) : outcome B :=
  match m with
  | Ok a => k a
  | Raise e => Raise e
  end.

Notation "x <- m ;; k" := (rbind m (fun x => k))
  (at level 61, m at next level, right associativity).
Notation "' p <- m ;; k" := (rbind m (fun x => let p := x in k))
  (at level 61, p pattern, m at next level, right associativity).

(** [len(s)] *)
Definition len {A} (s : list A) : Z := Z.of_nat (length s).

(** [s[i]]: a negative index counts from the end, an index out of range
    raises [IndexError]. *)
Definition getitem {A} (s : list A) (i : Z) : outcome A :=
  let j := if i <? 0 then i + len s else i in
  if (j <? 0) || (len s <=? j) then Raise IndexError
  else match nth_error s (Z.to_nat j) with
       | Some c => Ok c
       | None => Raise IndexError
       end.

Fixpoint list_set {A} (l : list A) (i : nat) (x : A) : list A :=
  match l, i with
  | [], _ => []
  | _ :: t, O => x :: t
  | h :: t, S j => h :: list_set t j x
  end.

(** [l[i] = x] on a list, with the same index rules as [getitem]. *)
Definition setitem {A} (l : list A) (i : Z) (x : A) : outcome (list A) :=
  let j := if i <? 0 then i + len l else i in
  if (j <? 0) || (len l <=? j) then Raise IndexError
  else Ok (list_set l (Z.to_nat j) x).

(** [s.index(c)]: position of the first occurrence, [ValueError] when
    there is none. *)
Fixpoint index (s : str) (c : ascii) : outcome Z :=
  match s with
  | [] => Raise ValueError
  | x :: rest =>
      if Ascii.eqb x c then Ok 0
      else i <- index rest c ;; Ok (i + 1)
  end.

(** [s.zfill(width)]: zeros go after a leading sign character. *)
Definition zfill (s : str) (width : Z) : str :=
  let fill := repeat "0"%char (Z.to_nat (width - len s)) in
  match s with
  | c :: rest =>
      if Ascii.eqb c "+" || Ascii.eqb c "-" then c :: fill ++ rest
      else fill ++ s
  | [] => fill
  end.

(** [s.rjust(width, fillchar)] *)
Definition rjust (s : str) (width : Z) (fillchar : ascii) : str :=
  repeat fillchar (Z.to_nat (width - len s)) ++ s.

(** [s[start:]] *)
Definition slice_from {A} (s : list A) (start : Z) : list A :=
  let st := if start <? 0 then Z.max 0 (start + len s) else start in
  skipn (Z.to_nat st) s.

(** [''.join(parts)] *)
Definition join (parts : list str) : str := concat parts.

(** [str(d)] for a one-digit [d]; the source applies it to [n % 2] only. *)
Definition str_of_digit (d : Z) : str :=
  match nth_error (lit "0123456789") (Z.to_nat d) with
  | Some c => [c]
  | None => []
  end.

(* ================================================================== *)
(** ** The object and its methods                                      *)
(* ================================================================== *)

Record NumberConverter : Type := mkNumberConverter {
  file_path : str;
  data : list Z;
  line_errors : list (Z * str)
}.

(** A method body: it may read and write the fields of [self] and may
    raise.  The object is returned in both cases, as an exception leaves
    the writes done before it in place. *)
Definition M (A : Type) : Type := NumberConverter -> outcome A * NumberConverter.

Definition ret {A} (a : A) : M A := fun self => (Ok a, self).

Definition raise {A} (e : exn) : M A := fun self => (Raise e, self).

Definition bind {A B} (m : M A) (k : A -> M B) : M B :=
  fun self =>
    match m self with
    | (Ok a, self') => k a self'
    | (Raise e, self') => (Raise e, self')
    end.

(** A computation on local variables only. *)
Definition lift {A} (r : outcome A) : M A := fun self => (r, self).

Definition get_self : M NumberConverter := fun self => (Ok self, self).

Definition put_self (s : NumberConverter) : M unit := fun _ => (Ok tt, s).

Notation "x <~ m ;; k" := (bind m (fun x => k))
  (at level 61, m at next level, right associativity).
Notation "m ;;; k" := (bind m (fun _ => k))
  (at level 61, right associativity).

(* ------------------------------------------------------------------ *)
(** *** convert_to_binary                                               *)

(** The magnitude loop of [convert_to_binary]:
    [while n > 0: binary_digits.append(str(n % 2)); n = n // 2].
    The variant is the number of binary digits of [n]. *)
Definition bit_length (n : Z) : nat := Z.to_nat (Z.log2 (2 * n + 1)).

(** [bit_length] decreases along a floor division by [d >= 2]. *)
Ltac bit_length_decreases n d :=
  unfold bit_length;
  assert (0 <= n / d) by (apply Z.div_pos; lia);
  assert (2 * (n / d) <= n)
    by (transitivity (d * (n / d));
        [apply Z.mul_le_mono_nonneg_r; lia | apply Z.mul_div_le; lia]);
  assert (Z.log2 (2 * (n / d) + 1) < Z.log2 (2 * n + 1))
    by (rewrite (Z.log2_succ_double n) by lia;
        destruct (Z.eq_dec (n / d) 0) as [E | E];
        [rewrite E; simpl; pose proof (Z.log2_nonneg n); lia
        |rewrite Z.log2_succ_double by lia;
         rewrite <- Z.log2_double by lia;
         apply Z.lt_succ_r; apply Z.log2_le_mono; lia]);
  pose proof (Z.log2_nonneg (2 * (n / d) + 1)); lia.

Equations? binary_digits_loop (n : Z) (binary_digits : list str) : list str
  by wf (bit_length n) lt :=
  binary_digits_loop n binary_digits with Z_gt_dec n 0 := {
    | left _ =>
        binary_digits_loop (n / 2) (binary_digits ++ [str_of_digit (n mod 2)]);
    | right _ => binary_digits }.
Proof. bit_length_decreases n 2. Qed.

(** The loop of [__binary_add_one], [for i in range(length - 1, -1, -1)]:
    [k] iterations remain and the next one has [i = k - 1].  The [break]
    ends the loop in the second branch. *)
Fixpoint binary_add_one_loop (k : nat) (binary_list : str) (carry : Z)
  : outcome (str * Z) :=
  match k with
  | O => Ok (binary_list, carry)
  | S j =>
      let i := Z.of_nat j in
      b <- getitem binary_list i ;;
      if Ascii.eqb b "1" && (carry =? 1) then
        binary_list' <- setitem binary_list i "0"%char ;;
        binary_add_one_loop j binary_list' 1
      else if carry =? 1 then
        binary_list' <- setitem binary_list i "1"%char ;;
        Ok (binary_list', 0)
      else binary_add_one_loop j binary_list carry
  end.

Definition binary_add_one (binary : str) : M str :=
  lift (
    let binary_list := binary in
    let length := len binary_list in
    ' (binary_list, carry) <-
        binary_add_one_loop (Z.to_nat length) binary_list 1 ;;
    let binary_list :=
      if carry =? 1 then "1"%char :: binary_list else binary_list in
    Ok (slice_from (join (map (fun c => [c]) binary_list)) (- length))).

(** ['1' if b == '0' else '0'] *)
Definition invert_bit (b : ascii) : ascii :=
  if Ascii.eqb b "0" then "1"%char else "0"%char.

Definition twos_complement (binary : str) (bits : Z) : M str :=
  let inverted := join (map (fun b => [invert_bit b]) binary) in
  inverted_plus_one <~ binary_add_one inverted ;;
  ret (zfill inverted_plus_one bits).

Definition convert_to_binary (number : Z) (bits : Z) : M str :=
  if number =? 0 then ret (lit "0")
  else
    let binary_digits := binary_digits_loop (Z.abs number) [] in
    if number <? 0 then
      let binary := zfill (join (rev binary_digits)) bits in
      twos_complement binary bits
    else
      let binary := join (rev binary_digits) in
      ret binary.

(** The default of the [bits] parameter. *)
Definition default_bits : Z := 10.

(* ------------------------------------------------------------------ *)
(** *** convert_to_hex                                                  *)

Definition hex_digits : str := lit "0123456789ABCDEF".

(** The magnitude loop of [convert_to_hex]:
    [while n > 0: hex_string = hex_digits[n % 16] + hex_string; n = n // 16]. *)
Equations? hex_digits_loop (n : Z) (hex_string : str) : outcome str
  by wf (bit_length n) lt :=
  hex_digits_loop n hex_string with Z_gt_dec n 0 := {
    | left _ with getitem hex_digits (n mod 16) := {
        | Ok c => hex_digits_loop (n / 16) ([c] ++ hex_string);
        | Raise e => Raise e };
    | right _ => Ok hex_string }.
Proof. bit_length_decreases n 16. Qed.

(** A generator expression whose element may raise. *)
Fixpoint mapM {A B} (f : A -> outcome B) (l : list A) : outcome (list B) :=
  match l with
  | [] => Ok []
  | x :: rest =>
      y <- f x ;;
      ys <- mapM f rest ;;
      Ok (y :: ys)
  end.

(** [hex_digits[15 - hex_digits.index(digit)]] *)
Definition invert_hex_digit (digit : ascii) : outcome str :=
  i <- index hex_digits digit ;;
  c <- getitem hex_digits (15 - i) ;;
  Ok [c].

(** The loop of [__add_one_to_hex] over [reversed(hex_string)]. *)
Fixpoint add_one_to_hex_loop (digits : str) (result : str) (carry : Z)
  : outcome str :=
  match digits with
  | [] => Ok result
  | digit :: rest =>
      if carry =? 0 then add_one_to_hex_loop rest ([digit] ++ result) carry
      else
        i <- index hex_digits digit ;;
        let index := i + carry in
        if index >=? 16 then add_one_to_hex_loop rest ("0"%char :: result) 1
        else
          c <- getitem hex_digits index ;;
          add_one_to_hex_loop rest ([c] ++ result) 0
  end.

Definition add_one_to_hex (hex_string : str) : M str :=
  lift (add_one_to_hex_loop (rev hex_string) [] 1).

Definition convert_to_hex (number : Z) : M str :=
  if number =? 0 then ret (lit "0")
  else
    hex_string <~ lift (hex_digits_loop (Z.abs number) []) ;;
    if number <? 0 then
      let hex_string := rjust hex_string 10 "0" in
      parts <~ lift (mapM invert_hex_digit hex_string) ;;
      let inverted_hex := join parts in
      incremented <~ add_one_to_hex inverted_hex ;;
      ret (rjust incremented 10 "F")
    else ret hex_string.

(** [transform_data]: the triple of every loaded number, with the default
    width for the binary column. *)
Fixpoint transform_loop (numbers : list Z) : M (list (Z * str * str)) :=
  match numbers with
  | [] => ret []
  | d :: rest =>
      b <~ convert_to_binary d default_bits ;;
      h <~ convert_to_hex d ;;
      tl <~ transform_loop rest ;;
      ret ((d, b, h) :: tl)
  end.

Definition transform_data : M (list (Z * str * str)) :=
  self <~ get_self ;;
  transform_loop (data self).

(* ------------------------------------------------------------------ *)
(** *** Construction and loading                                        *)

Section Loader.

(** The environment of the loader.  [fs path] is the sequence of lines
    that iterating over the opened file yields when [path] names a regular
    file, and [None] otherwise.  [strip] is [str.strip] and [int_of_str] is
    [int] on a string, [None] standing for its [ValueError]. *)
Variable fs : str -> option (list str).
Variable strip : str -> str.
Variable int_of_str : str -> option Z.

(** [os.path.isfile] *)
Definition isfile (path : str) : bool :=
  match fs path with
  | Some _ => true
  | None => false
  end.

Definition validate_file_exists : M unit :=
  self <~ get_self ;;
  if negb (isfile (file_path self)) then raise FileNotFoundError
  else ret tt.

(** [try: return int(line.strip()) except ValueError: return None] *)
Definition validate_input (line : str) : M (option Z) :=
  match int_of_str (strip line) with
  | Some number => ret (Some number)
  | None => ret None
  end.

Definition append_data (number : Z) : M unit :=
  self <~ get_self ;;
  put_self (mkNumberConverter (file_path self) (data self ++ [number])
              (line_errors self)).

Definition append_line_error (e : Z * str) : M unit :=
  self <~ get_self ;;
  put_self (mkNumberConverter (file_path self) (data self)
              (line_errors self ++ [e])).

(** [for i, line in enumerate(file)] *)
Fixpoint load_data_loop (i : Z) (file : list str) : M unit :=
  match file with
  | [] => ret tt
  | line :: rest =>
      number <~ validate_input line ;;
      match number with
      | Some n => append_data n
      | None => append_line_error (i, line)
      end ;;;
      load_data_loop (i + 1) rest
  end.

Definition load_data : M unit :=
  validate_file_exists ;;;
  self <~ get_self ;;
  match fs (file_path self) with
  | Some file => load_data_loop 0 file
  | None => raise FileNotFoundError
  end.

(** [__init__] on the object under construction. *)
Definition init (path : str) : M unit :=
  self <~ get_self ;;
  put_self (mkNumberConverter path (data self) (line_errors self)) ;;;
  self <~ get_self ;;
  put_self (mkNumberConverter (file_path self) [] (line_errors self)) ;;;
  self <~ get_self ;;
  put_self (mkNumberConverter (file_path self) (data self) []) ;;;
  load_data.

(** [NumberConverter(path)]: the new object when [__init__] returns, the
    exception otherwise. *)
Definition new_NumberConverter (path : str) : outcome NumberConverter :=
  match init path (mkNumberConverter [] [] []) with
  | (Ok _, self) => Ok self
  | (Raise e, _) => Raise e
  end.

End Loader.

(** An instance of the environment for ASCII files of decimal numbers: it
    is what the loader is run with in the examples. *)
Definition newline : ascii := ascii_of_nat 10.

Definition is_space (c : ascii) : bool :=
  existsb (Ascii.eqb c)
          [" "%char; newline; ascii_of_nat 9; ascii_of_nat 11;
           ascii_of_nat 12; ascii_of_nat 13].

Fixpoint lstrip (s : str) : str :=
  match s with
  | c :: rest => if is_space c then lstrip rest else s
  | [] => []
  end.

Definition ascii_strip (s : str) : str := rev (lstrip (rev (lstrip s))).

Fixpoint decimal_digits (s : str) (acc : Z) : option Z :=
  match s with
  | [] => Some acc
  | c :: rest =>
      let d := Z.of_nat (nat_of_ascii c) - 48 in
      if (0 <=? d) && (d <=? 9) then decimal_digits rest (10 * acc + d)
      else None
  end.

Definition decimal_int (s : str) : option Z :=
  match s with
  | [] => None
  | c :: rest =>
      if Ascii.eqb c "-" then
        match rest with
        | [] => None
        | _ => option_map Z.opp (decimal_digits rest 0)
        end
      else if Ascii.eqb c "+" then
        match rest with
        | [] => None
        | _ => decimal_digits rest 0
        end
      else decimal_digits s 0
  end.

(** A file system with the single file [data.txt] of four lines. *)
Definition sample_fs (path : str) : option (list str) :=
  if String.eqb (string_of_list_ascii path) "data.txt" then
    Some [lit "12" ++ [newline]; lit "abc" ++ [newline];
          lit " -3 " ++ [newline]; lit "4.5"]
  else None.

(* ------------------------------------------------------------------ *)
(** *** The report                                                      *)

Section Formatter.

(** The built-ins the report calls: [os.path.basename], [os.path.splitext],
    the rendering of an integer in an f-string, and [int] on a string,
    [None] standing for its [ValueError]. *)
Variable basename : str -> str.
Variable splitext : str -> str * str.
Variable str_of_int : Z -> str.
Variable int_of_str : str -> option Z.

Definition tab : ascii := ascii_of_nat 9.

(** [for i, value in enumerate(conversions)]: one row for each triple,
    [f"{i + 1}\t{value[0]}\t{int(value[1])}\t{value[2]}"]. *)
Fixpoint format_rows (i : Z) (conversions : list (Z * str * str))
  : outcome (list str) :=
  match conversions with
  | [] => Ok []
  | value :: rest =>
      let '(value0, value1, value2) := value in
      binary_as_int <-
        match int_of_str value1 with
        | Some z => Ok z
        | None => Raise ValueError
        end ;;
      let row :=
        join [str_of_int (i + 1); [tab]; str_of_int value0; [tab];
              str_of_int binary_as_int; [tab]; value2] in
      rows <- format_rows (i + 1) rest ;;
      Ok (row :: rows)
  end.

Definition format_conversion_for_display : M (list str) :=
  conversions <~ transform_data ;;
  self <~ get_self ;;
  let header_file_name := fst (splitext (basename (file_path self))) in
  let header :=
    join [lit "NUMBER"; [tab]; header_file_name; [tab]; lit "BIN"; [tab];
          lit "HEX"] in
  rows <~ lift (format_rows 0 conversions) ;;
  ret (header :: rows).

End Formatter.

(* ================================================================== *)
(** ** The [while] loops, step by step                                  *)
(* ================================================================== *)

(** [while cond: body] run for at most [fuel] tests of the condition;
    [None] when the loop is still running after them. *)
Fixpoint while_fuel {S : Type} (fuel : nat) (cond : S -> bool)
         (body : S -> outcome S) (s : S) : option (outcome S) :=
  match fuel with
  | O => None
  | S fuel' =>
      if cond s then
        match body s with
        | Ok s' => while_fuel fuel' cond body s'
        | Raise e => Some (Raise e)
        end
      else Some (Ok s)
  end.

(** The loop of [convert_to_binary] on its variables [(n, binary_digits)]. *)
Definition binary_cond (s : Z * list str) : bool := fst s >? 0.

Definition binary_body (s : Z * list str) : outcome (Z * list str) :=
  let '(n, binary_digits) := s in
  Ok (n / 2, binary_digits ++ [str_of_digit (n mod 2)]).

(** The loop of [convert_to_hex] on its variables [(n, hex_string)]. *)
Definition hex_cond (s : Z * str) : bool := fst s >? 0.

Definition hex_body (s : Z * str) : outcome (Z * str) :=
  let '(n, hex_string) := s in
  c <- getitem hex_digits (n mod 16) ;;
  Ok (n / 16, [c] ++ hex_string).

(* ================================================================== *)
(** ** Reading the encodings back                                       *)
(* ================================================================== *)

(** The number a digit string denotes in base [base], most significant
    digit first. *)
Definition digits_value (base : Z) (dv : ascii -> Z) (s : str) : Z :=
  fold_left (fun acc c => base * acc + dv c) s 0.

Definition bit_value (c : ascii) : Z := if Ascii.eqb c "1" then 1 else 0.

Definition is_bit (c : ascii) : Prop := c = "0"%char \/ c = "1"%char.

Definition bin_value (s : str) : Z := digits_value 2 bit_value s.

Definition hex_digit_value (c : ascii) : Z :=
  match index hex_digits c with
  | Ok i => i
  | Raise _ => 0
  end.

Definition is_hex_digit (c : ascii) : Prop := In c hex_digits.

Definition is_hex_digitb (c : ascii) : bool :=
  match index hex_digits c with
  | Ok _ => true
  | Raise _ => false
  end.

Definition hex_value (s : str) : Z := digits_value 16 hex_digit_value s.

(** The integer that the unsigned value [u] denotes as a [width]-bit
    two's-complement number. *)
Definition signed_of (width : Z) (u : Z) : Z :=
  if u <? 2 ^ (width - 1) then u else u - 2 ^ width.

(** The standard binary numeral of a positive number, without leading
    zero. *)
Fixpoint standard_binary (p : positive) : str :=
  match p with
  | xH => ["1"%char]
  | xO q => standard_binary q ++ ["0"%char]
  | xI q => standard_binary q ++ ["1"%char]
  end.

(** Neither field of [self] is written and the result does not depend on
    [self]. *)
Definition stateless {A} (m : M A) : Prop :=
  exists r, forall self, m self = (r, self).

(** The two collections the loader is to build from the lines of a file. *)
Fixpoint accepted (int_of_line : str -> option Z) (file : list str) : list Z :=
  match file with
  | [] => []
  | line :: rest =>
      match int_of_line line with
      | Some n => n :: accepted int_of_line rest
      | None => accepted int_of_line rest
      end
  end.

Fixpoint rejected (int_of_line : str -> option Z) (i : Z) (file : list str)
  : list (Z * str) :=
  match file with
  | [] => []
  | line :: rest =>
      match int_of_line line with
      | Some _ => rejected int_of_line (i + 1) rest
      | None => (i, line) :: rejected int_of_line (i + 1) rest
      end
  end.

(** Decimal numerals: what [int] reads from a string of ASCII digits, and
    what an f-string prints for a non-negative integer. *)
Definition decimal_digit_value (c : ascii) : Z :=
  Z.of_nat (nat_of_ascii c) - 48.

Definition is_decimal_digit (c : ascii) : Prop := In c (lit "0123456789").

Definition decimal_value (s : str) : Z :=
  digits_value 10 decimal_digit_value s.

Definition decimal_digit (d : Z) : ascii := ascii_of_nat (48 + Z.to_nat d).

Equations? decimal_loop (n : Z) (acc : str) : str
  by wf (bit_length n) lt :=
  decimal_loop n acc with Z_gt_dec n 0 := {
    | left _ => decimal_loop (n / 10) (decimal_digit (n mod 10) :: acc);
    | right _ => acc }.
Proof. bit_length_decreases n 10. Qed.

Definition decimal_str (z : Z) : str :=
  if z =? 0 then lit "0"
  else if z <? 0 then "-"%char :: decimal_loop (- z) []
  else decimal_loop z [].

(** A digit string without its leading zeros, ["0"] when nothing else is
    left. *)
Fixpoint drop_zeros (s : str) : str :=
  match s with
  | c :: rest => if Ascii.eqb c "0" then drop_zeros rest else s
  | [] => []
  end.

Definition without_leading_zeros (s : str) : str :=
  match drop_zeros s with
  | [] => lit "0"
  | t => t
  end.

(* ================================================================== *)
(** ** Sequence operations                                              *)
(* ================================================================== *)

Section Sequences.

Context {A : Type}.
Implicit Types (s t : list A) (x : A).

Lemma len_nonneg s : 0 <= len s.
Proof. unfold len. lia. Qed.

Lemma len_app s t : len (s ++ t) = len s + len t.
Proof. unfold len. rewrite length_app. lia. Qed.

Lemma len_cons x s : len (x :: s) = len s + 1.
Proof. unfold len. simpl. lia. Qed.

Lemma len_repeat x (n : nat) : len (repeat x n) = Z.of_nat n.
Proof. unfold len. now rewrite repeat_length. Qed.

Lemma getitem_middle s t x :
  getitem (s ++ x :: t) (len s) = Ok x.
Proof.
  unfold getitem.
  pose proof (len_nonneg s) as Hs. pose proof (len_nonneg t) as Ht.
  destruct (len s <? 0) eqn:E; [apply Z.ltb_lt in E; lia |].
  rewrite E, len_app, len_cons. simpl.
  destruct (len s + (len t + 1) <=? len s) eqn:E2;
    [apply Z.leb_le in E2; lia |].
  unfold len. rewrite Nat2Z.id, nth_error_app2 by lia.
  now rewrite Nat.sub_diag.
Qed.

Lemma list_set_middle s t x y :
  list_set (s ++ x :: t) (length s) y = s ++ y :: t.
Proof. induction s as [| h s IH]; simpl; [reflexivity | now rewrite IH]. Qed.

Lemma setitem_middle s t x y :
  setitem (s ++ x :: t) (len s) y = Ok (s ++ y :: t).
Proof.
  unfold setitem.
  pose proof (len_nonneg s) as Hs. pose proof (len_nonneg t) as Ht.
  destruct (len s <? 0) eqn:E; [apply Z.ltb_lt in E; lia |].
  rewrite E, len_app, len_cons. simpl.
  destruct (len s + (len t + 1) <=? len s) eqn:E2;
    [apply Z.leb_le in E2; lia |].
  unfold len. now rewrite Nat2Z.id, list_set_middle.
Qed.

(** [s[-len(s):]] is [s], and so is [(x + s)[-len(s):]] for a non-empty
    [s]. *)
Lemma slice_from_all s : slice_from s (- len s) = s.
Proof.
  unfold slice_from. pose proof (len_nonneg s) as Hs.
  destruct (- len s <? 0) eqn:E.
  - replace (- len s + len s) with 0 by lia. reflexivity.
  - apply Z.ltb_ge in E. replace (- len s) with 0 by lia. reflexivity.
Qed.

Lemma slice_from_drop_first s x :
  s <> [] -> slice_from (x :: s) (- len s) = s.
Proof.
  intros Hne. unfold slice_from.
  assert (0 < len s) by (destruct s; [congruence | rewrite len_cons; pose proof (len_nonneg s); lia]).
  destruct (- len s <? 0) eqn:E; [| apply Z.ltb_ge in E; lia].
  rewrite len_cons. replace (- len s + (len s + 1)) with 1 by lia.
  reflexivity.
Qed.

End Sequences.

Lemma zfill_pad (s : str) (width : Z) :
  (forall c rest, s = c :: rest -> c <> "+"%char /\ c <> "-"%char) ->
  zfill s width = repeat "0"%char (Z.to_nat (width - len s)) ++ s.
Proof.
  intros Hsign. unfold zfill. destruct s as [| c rest].
  - now rewrite app_nil_r.
  - destruct (Hsign c rest eq_refl) as [Hp Hm].
    apply Ascii.eqb_neq in Hp, Hm. now rewrite Hp, Hm.
Qed.

Lemma zfill_long (s : str) (width : Z) :
  width <= len s -> zfill s width = s.
Proof.
  intros Hw. unfold zfill.
  replace (Z.to_nat (width - len s)) with 0%nat by lia. simpl.
  destruct s as [| c rest]; [reflexivity |].
  now destruct (Ascii.eqb c "+" || Ascii.eqb c "-").
Qed.

Lemma rjust_long (s : str) (width : Z) (c : ascii) :
  width <= len s -> rjust s width c = s.
Proof.
  intros Hw. unfold rjust.
  now replace (Z.to_nat (width - len s)) with 0%nat by lia.
Qed.

Lemma len_rjust (s : str) (width : Z) (c : ascii) :
  len (rjust s width c) = Z.max width (len s).
Proof. unfold rjust. rewrite len_app, len_repeat. lia. Qed.

(* ================================================================== *)
(** ** Digit strings and their values                                   *)
(* ================================================================== *)

Section DigitsValue.

Variable base : Z.
Variable dv : ascii -> Z.
Hypothesis base_pos : 1 < base.

Lemma digits_value_acc (s : str) (a : Z) :
  fold_left (fun acc c => base * acc + dv c) s a
  = a * base ^ len s + digits_value base dv s.
Proof.
  unfold digits_value. revert a.
  induction s as [| c s IH]; intros a.
  - simpl. lia.
  - cbn [fold_left]. rewrite IH, (IH (base * 0 + dv c)), len_cons.
    rewrite Z.pow_add_r by (pose proof (len_nonneg s); lia). lia.
Qed.

Lemma digits_value_nil : digits_value base dv [] = 0.
Proof. reflexivity. Qed.

Lemma digits_value_app (s t : str) :
  digits_value base dv (s ++ t)
  = digits_value base dv s * base ^ len t + digits_value base dv t.
Proof.
  unfold digits_value at 1. rewrite fold_left_app.
  now rewrite digits_value_acc.
Qed.

Lemma digits_value_snoc (s : str) (c : ascii) :
  digits_value base dv (s ++ [c]) = base * digits_value base dv s + dv c.
Proof.
  unfold digits_value. now rewrite fold_left_app.
Qed.

Lemma digits_value_cons (c : ascii) (s : str) :
  digits_value base dv (c :: s)
  = dv c * base ^ len s + digits_value base dv s.
Proof.
  change (c :: s) with ([c] ++ s). rewrite digits_value_app.
  unfold digits_value at 1. simpl. lia.
Qed.

Lemma digits_value_bounds (s : str) :
  Forall (fun c => 0 <= dv c < base) s ->
  0 <= digits_value base dv s < base ^ len s.
Proof.
  induction s as [| c s IH] using rev_ind; intros Hall.
  - rewrite digits_value_nil. simpl. lia.
  - apply Forall_app in Hall as [Hs Hc]. inversion Hc as [| ? ? Hd _]; subst.
    specialize (IH Hs). rewrite digits_value_snoc, len_app.
    change (len [c]) with 1.
    rewrite Z.pow_add_r, Z.pow_1_r by (pose proof (len_nonneg s); lia).
    nia.
Qed.

Lemma digits_value_zeros (n : nat) (z : ascii) :
  dv z = 0 -> digits_value base dv (repeat z n) = 0.
Proof.
  intros Hz. induction n as [| n IH]; [reflexivity |].
  simpl. rewrite digits_value_cons, IH, Hz. lia.
Qed.

Lemma digits_value_pad (n : nat) (z : ascii) (s : str) :
  dv z = 0 ->
  digits_value base dv (repeat z n ++ s) = digits_value base dv s.
Proof.
  intros Hz. rewrite digits_value_app, digits_value_zeros by assumption. lia.
Qed.

End DigitsValue.

(* ================================================================== *)
(** ** The magnitude loops                                              *)
(* ================================================================== *)

Lemma binary_digits_loop_eq (n : Z) (ds : list str) :
  binary_digits_loop n ds
  = if n >? 0 then binary_digits_loop (n / 2) (ds ++ [str_of_digit (n mod 2)])
    else ds.
Proof.
  rewrite (binary_digits_loop_equation_1 n ds).
  destruct (Z_gt_dec n 0) as [H | H]; simpl.
  - assert (E : (n >? 0) = true) by (apply Z.gtb_lt; lia). now rewrite E.
  - destruct (n >? 0) eqn:E; [apply Z.gtb_lt in E; lia | reflexivity].
Qed.

Lemma hex_digits_loop_eq (n : Z) (hex_string : str) :
  hex_digits_loop n hex_string
  = if n >? 0 then
      c <- getitem hex_digits (n mod 16) ;;
      hex_digits_loop (n / 16) ([c] ++ hex_string)
    else Ok hex_string.
Proof.
  rewrite (hex_digits_loop_equation_1 n hex_string).
  destruct (Z_gt_dec n 0) as [H | H]; simpl.
  - assert (E : (n >? 0) = true) by (apply Z.gtb_lt; lia). rewrite E.
    now destruct (getitem hex_digits (n mod 16)).
  - destruct (n >? 0) eqn:E; [apply Z.gtb_lt in E; lia | reflexivity].
Qed.

Lemma binary_digits_loop_nonpos (n : Z) (ds : list str) :
  n <= 0 -> binary_digits_loop n ds = ds.
Proof.
  intros Hn. rewrite binary_digits_loop_eq.
  destruct (n >? 0) eqn:E; [apply Z.gtb_lt in E; lia | reflexivity].
Qed.

(** On a positive number the loop collects the standard binary numeral,
    least significant digit first. *)
Lemma binary_digits_loop_standard (p : positive) (ds : list str) :
  join (rev (binary_digits_loop (Zpos p) ds))
  = standard_binary p ++ join (rev ds).
Proof.
  revert ds. induction p as [q IH | q IH |]; intros ds;
    rewrite binary_digits_loop_eq; cbn [Z.gtb Z.compare].
  - replace (Z.pos q~1 / 2) with (Z.pos q)
      by (apply (Z.div_unique _ _ _ 1); lia).
    replace (Z.pos q~1 mod 2) with 1
      by (apply (Z.mod_unique _ _ (Z.pos q)); lia).
    rewrite IH, rev_app_distr. cbn. now rewrite <- app_assoc.
  - replace (Z.pos q~0 / 2) with (Z.pos q)
      by (apply (Z.div_unique _ _ _ 0); lia).
    replace (Z.pos q~0 mod 2) with 0
      by (apply (Z.mod_unique _ _ (Z.pos q)); lia).
    rewrite IH, rev_app_distr. cbn. now rewrite <- app_assoc.
  - change (1 / 2) with 0. change (1 mod 2) with 1.
    rewrite binary_digits_loop_nonpos by lia.
    rewrite rev_app_distr. reflexivity.
Qed.

Lemma standard_binary_bits (p : positive) : Forall is_bit (standard_binary p).
Proof.
  induction p as [q IH | q IH |]; simpl.
  - apply Forall_app. split; [exact IH |].
    constructor; [now right | constructor].
  - apply Forall_app. split; [exact IH |].
    constructor; [now left | constructor].
  - constructor; [now right | constructor].
Qed.

Lemma standard_binary_value (p : positive) :
  bin_value (standard_binary p) = Zpos p.
Proof.
  unfold bin_value.
  induction p as [q IH | q IH |]; simpl standard_binary.
  - rewrite digits_value_snoc, IH. cbn. lia.
  - rewrite digits_value_snoc, IH. cbn. lia.
  - reflexivity.
Qed.

Lemma standard_binary_head (p : positive) :
  exists t, standard_binary p = "1"%char :: t.
Proof.
  induction p as [q [t IH] | q [t IH] |]; simpl.
  - rewrite IH. now exists (t ++ ["1"%char]).
  - rewrite IH. now exists (t ++ ["0"%char]).
  - now exists [].
Qed.

Lemma bit_value_range (c : ascii) : 0 <= bit_value c < 2.
Proof. unfold bit_value. destruct (Ascii.eqb c "1"); lia. Qed.

Lemma bin_value_bounds (s : str) : 0 <= bin_value s < 2 ^ len s.
Proof.
  apply digits_value_bounds; [lia |].
  apply Forall_forall. intros c _. apply bit_value_range.
Qed.

(** The numeral of [p] has exactly as many digits as [p] needs. *)
Lemma standard_binary_len (p : positive) :
  2 ^ (len (standard_binary p) - 1) <= Zpos p < 2 ^ len (standard_binary p).
Proof.
  pose proof (bin_value_bounds (standard_binary p)) as Hb.
  rewrite standard_binary_value in Hb. split; [| lia].
  destruct (standard_binary_head p) as [t Ht].
  pose proof (standard_binary_value p) as Hv.
  rewrite Ht in *. unfold bin_value in Hv.
  rewrite digits_value_cons in Hv by lia.
  rewrite len_cons. replace (len t + 1 - 1) with (len t) by lia.
  change (bit_value "1") with 1 in Hv.
  pose proof (bin_value_bounds t) as Ht'. unfold bin_value in Ht'. lia.
Qed.

(* ================================================================== *)
(** ** Two's complement of a binary string                              *)
(* ================================================================== *)

Lemma join_singletons (f : ascii -> ascii) (s : str) :
  join (map (fun b => [f b]) s) = map f s.
Proof.
  unfold join. induction s as [| c s IH]; [reflexivity |].
  cbn. now rewrite <- IH.
Qed.

Lemma invert_bits (s : str) : Forall is_bit (map invert_bit s).
Proof.
  apply Forall_forall. intros c Hc. apply in_map_iff in Hc as [b [<- _]].
  unfold invert_bit, is_bit. destruct (Ascii.eqb b "0"); auto.
Qed.

Lemma invert_value (s : str) :
  Forall is_bit s ->
  bin_value (map invert_bit s) = 2 ^ len s - 1 - bin_value s.
Proof.
  unfold bin_value.
  induction s as [| c s IH] using rev_ind; intros Hall; [reflexivity |].
  apply Forall_app in Hall as [Hs Hc]. inversion Hc as [| ? ? Hd _]; subst.
  rewrite map_app. cbn [map].
  rewrite !digits_value_snoc, IH, len_app by assumption.
  change (len [c]) with 1.
  rewrite Z.pow_add_r, Z.pow_1_r by (pose proof (len_nonneg s); lia).
  assert (H0 : bit_value (invert_bit "0") = 1 /\ bit_value "0" = 0)
    by (split; reflexivity).
  assert (H1 : bit_value (invert_bit "1") = 0 /\ bit_value "1" = 1)
    by (split; reflexivity).
  destruct Hd as [-> | ->]; lia.
Qed.

Lemma join_chars (s : str) : join (map (fun c => [c]) s) = s.
Proof. rewrite (join_singletons (fun c => c)). apply map_id. Qed.

(** One iteration of the add-one loop at a ['1']: the digit becomes ['0']
    and the carry goes on. *)
Lemma binary_add_one_loop_one (pre suf : str) :
  binary_add_one_loop (S (length pre)) (pre ++ "1"%char :: suf) 1
  = binary_add_one_loop (length pre) (pre ++ "0"%char :: suf) 1.
Proof.
  cbn [binary_add_one_loop]. fold (len pre).
  rewrite getitem_middle. cbn [rbind]. cbn [Ascii.eqb Bool.eqb andb Z.eqb].
  now rewrite setitem_middle.
Qed.

(** One iteration at any other digit: it becomes ['1'] and the loop is
    left. *)
Lemma binary_add_one_loop_other (pre suf : str) (b : ascii) :
  b <> "1"%char ->
  binary_add_one_loop (S (length pre)) (pre ++ b :: suf) 1
  = Ok (pre ++ "1"%char :: suf, 0).
Proof.
  intros Hb. cbn [binary_add_one_loop]. fold (len pre).
  rewrite getitem_middle. cbn [rbind].
  apply Ascii.eqb_neq in Hb. rewrite Hb. cbn [andb Z.eqb].
  now rewrite setitem_middle.
Qed.

Lemma binary_add_one_loop_spec (pre suf : str) :
  Forall is_bit pre ->
  exists (s' : str) (carry : Z),
    binary_add_one_loop (length pre) (pre ++ suf) 1 = Ok (s' ++ suf, carry)
    /\ length s' = length pre
    /\ Forall is_bit s'
    /\ (carry = 0 \/ carry = 1)
    /\ bin_value s' + carry * 2 ^ len pre = bin_value pre + 1.
Proof.
  revert suf. induction pre as [| b pre IH] using rev_ind; intros suf Hall.
  - exists [], 1. cbn. repeat split; auto.
  - apply Forall_app in Hall as [Hpre Hb]. inversion Hb as [| ? ? Hd _]; subst.
    rewrite length_app, Nat.add_1_r, <- app_assoc. cbn [app].
    assert (Hpow : 2 ^ len (pre ++ [b]) = 2 * 2 ^ len pre).
    { rewrite len_app. change (len [b]) with 1.
      rewrite Z.pow_add_r, Z.pow_1_r by (pose proof (len_nonneg pre); lia).
      lia. }
    destruct Hd as [-> | ->].
    + exists (pre ++ ["1"%char]), 0.
      rewrite binary_add_one_loop_other by discriminate.
      rewrite <- app_assoc. repeat split; auto.
      * rewrite !length_app. cbn. lia.
      * apply Forall_app. split; [assumption |].
        constructor; [now right | constructor].
      * unfold bin_value. rewrite !digits_value_snoc.
        change (bit_value "0") with 0. change (bit_value "1") with 1. lia.
    + rewrite binary_add_one_loop_one.
      destruct (IH ("0"%char :: suf) Hpre) as (s' & carry & Hrun & Hlen & Hbits & Hc & Hval).
      exists (s' ++ ["0"%char]), carry.
      rewrite Hrun, <- app_assoc. repeat split; auto.
      * rewrite !length_app. cbn. lia.
      * apply Forall_app. split; [assumption |].
        constructor; [now left | constructor].
      * rewrite Hpow. unfold bin_value in *. rewrite !digits_value_snoc.
        change (bit_value "0") with 0. change (bit_value "1") with 1. lia.
Qed.

Lemma binary_add_one_spec (s : str) (self : NumberConverter) :
  s <> [] -> Forall is_bit s ->
  exists r : str,
    binary_add_one s self = (Ok r, self)
    /\ length r = length s
    /\ Forall is_bit r
    /\ bin_value r = (bin_value s + 1) mod 2 ^ len s.
Proof.
  intros Hne Hall.
  destruct (binary_add_one_loop_spec s [] Hall)
    as (s' & carry & Hrun & Hlen & Hbits & Hc & Hval).
  rewrite !app_nil_r in Hrun.
  exists s'. unfold binary_add_one, lift, len.
  rewrite Nat2Z.id, Hrun. cbn [rbind]. rewrite join_chars. fold (len s).
  assert (Hlen' : len s = len s') by (unfold len; now rewrite Hlen).
  assert (Hne' : s' <> []) by (destruct s', s; simpl in *; congruence).
  pose proof (bin_value_bounds s') as Hb. rewrite <- Hlen' in Hb.
  repeat split; auto.
  - f_equal. f_equal. rewrite Hlen'.
    destruct Hc as [-> | ->]; cbn [Z.eqb].
    + apply slice_from_all.
    + now apply slice_from_drop_first.
  - destruct Hc as [-> | ->].
    + replace (bin_value s + 1) with (bin_value s') by lia.
      symmetry. apply Z.mod_small. lia.
    + apply (Z.mod_unique _ _ 1); lia.
Qed.

Lemma twos_complement_spec (binary : str) (bits : Z) (self : NumberConverter) :
  binary <> [] -> Forall is_bit binary -> bits <= len binary ->
  exists r : str,
    twos_complement binary bits self = (Ok r, self)
    /\ Forall is_bit r
    /\ len r = len binary
    /\ bin_value r = (2 ^ len binary - bin_value binary) mod 2 ^ len binary.
Proof.
  intros Hne Hall Hbits. unfold twos_complement.
  rewrite join_singletons.
  assert (Hne' : map invert_bit binary <> [])
    by (destruct binary; [congruence | discriminate]).
  destruct (binary_add_one_spec (map invert_bit binary) self Hne'
              (invert_bits binary)) as (r & Hrun & Hlen & Hr & Hval).
  rewrite length_map in Hlen.
  assert (Hlen' : len r = len binary) by (unfold len; now rewrite Hlen).
  exists r. unfold bind. rewrite Hrun. unfold ret.
  rewrite zfill_long by lia. repeat split; auto.
  rewrite Hval, invert_value by assumption.
  unfold len at 2. rewrite length_map. fold (len binary).
  f_equal. lia.
Qed.

(** The magnitude string of a negative number after [zfill]. *)
Lemma zfill_standard_binary (p : positive) (bits : Z) :
  let binary := zfill (standard_binary p) bits in
  binary <> [] /\ Forall is_bit binary
  /\ len binary = Z.max bits (len (standard_binary p))
  /\ bin_value binary = Zpos p.
Proof.
  destruct (standard_binary_head p) as [t Ht]. cbn zeta.
  rewrite zfill_pad by (rewrite Ht; intros c rest [= <- _]; split; discriminate).
  repeat split.
  - rewrite Ht. now destruct (repeat _ _).
  - apply Forall_app. split; [| apply standard_binary_bits].
    apply Forall_forall. intros c Hc. apply repeat_spec in Hc. now left.
  - rewrite len_app, len_repeat. lia.
  - unfold bin_value. rewrite digits_value_pad by (lia || reflexivity).
    apply standard_binary_value.
Qed.

(** What [convert_to_binary] returns on a negative number: a binary string
    as long as the wider of [bits] and the magnitude, which reads as the
    two's complement of the magnitude at that length. *)
Lemma convert_to_binary_negative (p : positive) (bits : Z)
      (self : NumberConverter) :
  exists r : str,
    convert_to_binary (Zneg p) bits self = (Ok r, self)
    /\ Forall is_bit r
    /\ len r = Z.max bits (len (standard_binary p))
    /\ bin_value r = 2 ^ len r - Zpos p.
Proof.
  unfold convert_to_binary. cbn [Z.eqb Z.ltb Z.compare Z.abs].
  pose proof (binary_digits_loop_standard p []) as Hloop.
  cbn [rev] in Hloop. unfold join at 2 in Hloop. cbn [concat] in Hloop.
  rewrite app_nil_r in Hloop. rewrite Hloop.
  destruct (zfill_standard_binary p bits) as (Hne & Hall & Hlen & Hval).
  cbn zeta in *.
  destruct (twos_complement_spec _ bits self Hne Hall ltac:(lia))
    as (r & Hrun & Hr & Hlenr & Hvalr).
  exists r. rewrite Hrun. repeat split; auto; [lia |].
  rewrite Hvalr, Hval, Hlenr.
  pose proof (standard_binary_len p) as [_ Hub].
  assert (2 ^ len (standard_binary p) <= 2 ^ len (zfill (standard_binary p) bits)).
  { apply Z.pow_le_mono_r; [lia |]. rewrite Hlen. lia. }
  apply Z.mod_small. lia.
Qed.

Lemma convert_to_binary_positive (p : positive) (bits : Z)
      (self : NumberConverter) :
  convert_to_binary (Zpos p) bits self = (Ok (standard_binary p), self).
Proof.
  unfold convert_to_binary. cbn [Z.eqb Z.ltb Z.compare Z.abs].
  pose proof (binary_digits_loop_standard p []) as Hloop.
  cbn [rev] in Hloop. unfold join at 2 in Hloop. cbn [concat] in Hloop.
  rewrite app_nil_r in Hloop. now rewrite Hloop.
Qed.

(* ================================================================== *)
(** ** Hexadecimal digits                                               *)
(* ================================================================== *)

Lemma hex_getitem (i : Z) :
  0 <= i < 16 ->
  exists c, getitem hex_digits i = Ok c
            /\ is_hex_digit c /\ hex_digit_value c = i.
Proof.
  intros Hi.
  assert (Hcases : i = 0 \/ i = 1 \/ i = 2 \/ i = 3 \/ i = 4 \/ i = 5
                   \/ i = 6 \/ i = 7 \/ i = 8 \/ i = 9 \/ i = 10 \/ i = 11
                   \/ i = 12 \/ i = 13 \/ i = 14 \/ i = 15) by lia.
  unfold is_hex_digit.
  repeat (destruct Hcases as [-> | Hcases]); [.. | subst i];
    (eexists; split; [reflexivity | split; [cbn; tauto | reflexivity]]).
Qed.

Lemma hex_index (c : ascii) :
  is_hex_digit c ->
  index hex_digits c = Ok (hex_digit_value c) /\ 0 <= hex_digit_value c < 16.
Proof.
  unfold is_hex_digit. cbn [hex_digits lit list_ascii_of_string In].
  intros Hc.
  repeat (destruct Hc as [<- | Hc]); [.. | contradiction];
    (split; [reflexivity | cbv; split; congruence]).
Qed.

Lemma hex_digit_value_range (s : str) :
  Forall is_hex_digit s -> Forall (fun c => 0 <= hex_digit_value c < 16) s.
Proof.
  intros H. eapply Forall_impl; [| exact H].
  intros c Hc. now apply hex_index.
Qed.

Lemma hex_value_bounds (s : str) :
  Forall is_hex_digit s -> 0 <= hex_value s < 16 ^ len s.
Proof.
  intros H. apply digits_value_bounds; [lia | now apply hex_digit_value_range].
Qed.

Lemma pow_succ_len {A} (b : Z) (s : list A) (x : A) :
  b ^ len (s ++ [x]) = b * b ^ len s.
Proof.
  rewrite len_app. change (len [x]) with 1.
  rewrite Z.pow_add_r, Z.pow_1_r by (pose proof (len_nonneg s); lia). lia.
Qed.

(** The magnitude loop of [convert_to_hex] never raises; it puts the
    hexadecimal numeral of [n], without leading zero, in front of
    [hex_string]. *)
Lemma hex_digits_loop_spec (n : Z) :
  0 <= n ->
  forall hex_string, exists ds : str,
    hex_digits_loop n hex_string = Ok (ds ++ hex_string)
    /\ Forall is_hex_digit ds
    /\ hex_value ds = n
    /\ (n = 0 -> ds = [])
    /\ (0 < n -> 16 ^ (len ds - 1) <= n).
Proof.
  pattern n. apply (well_founded_induction (Z.lt_wf 0)). clear n.
  intros n IH Hn hex_string. rewrite hex_digits_loop_eq.
  destruct (n >? 0) eqn:E.
  - apply Z.gtb_lt in E.
    assert (Hmod : 0 <= n mod 16 < 16) by (apply Z.mod_pos_bound; lia).
    destruct (hex_getitem _ Hmod) as (c & Hget & Hc & Hcv).
    rewrite Hget. cbn [rbind].
    assert (Hq : 0 <= n / 16 < n)
      by (split; [apply Z.div_pos | apply Z.div_lt]; lia).
    destruct (IH (n / 16) Hq ltac:(lia) ([c] ++ hex_string))
      as (ds & Hrun & Hds & Hval & Hzero & Hlow).
    exists (ds ++ [c]). rewrite Hrun, <- app_assoc.
    pose proof (Z.div_mod n 16 ltac:(lia)) as Hdm.
    repeat split; auto.
    + apply Forall_app. split; [assumption | now constructor].
    + unfold hex_value in *. rewrite digits_value_snoc, Hval, Hcv. lia.
    + lia.
    + intros _. rewrite len_app. change (len [c]) with 1.
      replace (len ds + 1 - 1) with (len ds) by lia.
      destruct (Z.eq_dec (n / 16) 0) as [Hz | Hnz].
      * rewrite (Hzero Hz). cbn. lia.
      * specialize (Hlow ltac:(lia)).
        assert (0 < len ds).
        { destruct ds; [cbn in Hval; lia |].
          rewrite len_cons. pose proof (len_nonneg ds). lia. }
        replace (len ds) with (len ds - 1 + 1) by lia.
        rewrite Z.pow_add_r, Z.pow_1_r by lia. lia.
  - rewrite Z.gtb_ltb in E. apply Z.ltb_ge in E. exists []. cbn [app].
    repeat split; auto; try lia.
    unfold hex_value. rewrite digits_value_nil. lia.
Qed.

Lemma hex_magnitude (p : positive) :
  exists ds : str,
    hex_digits_loop (Zpos p) [] = Ok ds
    /\ Forall is_hex_digit ds
    /\ hex_value ds = Zpos p
    /\ 16 ^ (len ds - 1) <= Zpos p < 16 ^ len ds.
Proof.
  destruct (hex_digits_loop_spec (Zpos p) ltac:(lia) [])
    as (ds & Hrun & Hds & Hval & _ & Hlow).
  rewrite app_nil_r in Hrun. exists ds. repeat split; auto.
  - apply Hlow. lia.
  - rewrite <- Hval. now apply hex_value_bounds.
Qed.

(* ================================================================== *)
(** ** Two's complement of a hexadecimal string                         *)
(* ================================================================== *)

Lemma invert_hex_digit_spec (d : ascii) :
  is_hex_digit d ->
  exists c, invert_hex_digit d = Ok [c]
            /\ is_hex_digit c /\ hex_digit_value c = 15 - hex_digit_value d.
Proof.
  intros Hd. destruct (hex_index d Hd) as [Hidx Hrange].
  destruct (hex_getitem (15 - hex_digit_value d) ltac:(lia))
    as (c & Hget & Hc & Hcv).
  exists c. unfold invert_hex_digit. rewrite Hidx. cbn [rbind].
  rewrite Hget. cbn [rbind]. auto.
Qed.

Lemma invert_hex_spec (s : str) :
  Forall is_hex_digit s ->
  exists parts : list str,
    mapM invert_hex_digit s = Ok parts
    /\ Forall is_hex_digit (join parts)
    /\ len (join parts) = len s
    /\ hex_value (join parts) = 16 ^ len s - 1 - hex_value s.
Proof.
  unfold hex_value.
  induction s as [| d s IH]; intros Hall.
  - exists []. cbn. auto.
  - inversion Hall as [| ? ? Hd Hs]; subst.
    destruct (invert_hex_digit_spec d Hd) as (c & Hinv & Hc & Hcv).
    destruct (IH Hs) as (parts & Hrun & Hparts & Hlen & Hval).
    exists ([c] :: parts). cbn [mapM]. rewrite Hinv. cbn [rbind].
    rewrite Hrun. cbn [rbind]. unfold join in *. cbn [concat app].
    repeat split.
    + now constructor.
    + rewrite !len_cons. lia.
    + rewrite !digits_value_cons, Hval, Hlen, Hcv by lia.
      rewrite len_cons, Z.pow_add_r, Z.pow_1_r
        by (pose proof (len_nonneg s); lia).
      lia.
Qed.

(** The add-one loop over the reversed digits [digits], with the digits
    already produced in [result]: it never raises on hexadecimal digits, it
    produces one digit for each digit read, and a carry left at the end is
    dropped. *)
Lemma add_one_to_hex_loop_spec (digits : str) :
  Forall is_hex_digit digits ->
  forall (result : str) (carry : Z), carry = 0 \/ carry = 1 ->
  exists (x : str) (carry_out : Z),
    add_one_to_hex_loop digits result carry = Ok (x ++ result)
    /\ length x = length digits
    /\ Forall is_hex_digit x
    /\ (carry_out = 0 \/ carry_out = 1)
    /\ hex_value x + carry_out * 16 ^ len digits
       = hex_value (rev digits) + carry.
Proof.
  unfold hex_value.
  induction digits as [| d digits IH]; intros Hall result carry Hcarry.
  - exists [], carry. cbn. repeat split; auto. lia.
  - inversion Hall as [| ? ? Hd Hs]; subst.
    destruct (hex_index d Hd) as [Hidx Hrange].
    cbn [add_one_to_hex_loop rev].
    rewrite digits_value_snoc, len_cons.
    rewrite Z.pow_add_r, Z.pow_1_r by (pose proof (len_nonneg digits); lia).
    destruct Hcarry as [-> | ->]; cbn [Z.eqb].
    + destruct (IH Hs ([d] ++ result) 0 ltac:(auto))
        as (x & cout & Hrun & Hlen & Hx & Hc & Hval).
      exists (x ++ [d]), cout. rewrite Hrun, <- app_assoc.
      repeat split; auto.
      * rewrite length_app. cbn. lia.
      * apply Forall_app. split; [assumption | now constructor].
      * rewrite digits_value_snoc. lia.
    + rewrite Hidx. cbn [rbind].
      destruct (hex_digit_value d + 1 >=? 16) eqn:E.
      * apply Z.geb_le in E.
        destruct (IH Hs ("0"%char :: result) 1 ltac:(auto))
          as (x & cout & Hrun & Hlen & Hx & Hc & Hval).
        exists (x ++ ["0"%char]), cout.
        rewrite Hrun, <- app_assoc. repeat split; auto.
        -- rewrite length_app. cbn. lia.
        -- apply Forall_app. split; [assumption |].
           constructor; [cbn; tauto | constructor].
        -- rewrite digits_value_snoc.
           change (hex_digit_value "0") with 0. lia.
      * rewrite Z.geb_leb in E. apply Z.leb_gt in E.
        destruct (hex_getitem (hex_digit_value d + 1) ltac:(lia))
          as (c & Hget & Hcd & Hcv).
        rewrite Hget. cbn [rbind].
        destruct (IH Hs ([c] ++ result) 0 ltac:(auto))
          as (x & cout & Hrun & Hlen & Hx & Hc & Hval).
        exists (x ++ [c]), cout.
        rewrite Hrun, <- app_assoc. repeat split; auto.
        -- rewrite length_app. cbn. lia.
        -- apply Forall_app. split; [assumption | now constructor].
        -- rewrite digits_value_snoc, Hcv. lia.
Qed.

Lemma add_one_to_hex_spec (hex_string : str) (self : NumberConverter) :
  Forall is_hex_digit hex_string ->
  exists r : str,
    add_one_to_hex hex_string self = (Ok r, self)
    /\ length r = length hex_string
    /\ Forall is_hex_digit r
    /\ hex_value r = (hex_value hex_string + 1) mod 16 ^ len hex_string.
Proof.
  intros Hall.
  assert (Hrev : Forall is_hex_digit (rev hex_string))
    by (apply Forall_rev; assumption).
  destruct (add_one_to_hex_loop_spec _ Hrev [] 1 ltac:(auto))
    as (x & cout & Hrun & Hlen & Hx & Hc & Hval).
  rewrite app_nil_r in Hrun. rewrite length_rev in Hlen.
  rewrite rev_involutive in Hval.
  assert (Hl : len (rev hex_string) = len hex_string)
    by (unfold len; now rewrite length_rev).
  rewrite Hl in Hval.
  exists x. unfold add_one_to_hex, lift. rewrite Hrun.
  repeat split; auto.
  pose proof (hex_value_bounds x Hx) as Hb.
  replace (len x) with (len hex_string) in Hb by (unfold len; now rewrite Hlen).
  destruct Hc as [-> | ->].
  - replace (hex_value hex_string + 1) with (hex_value x) by lia.
    symmetry. apply Z.mod_small. lia.
  - apply (Z.mod_unique _ _ 1); lia.
Qed.

Lemma rjust_zero_hex (ds : str) (width : Z) :
  Forall is_hex_digit ds ->
  Forall is_hex_digit (rjust ds width "0")
  /\ hex_value (rjust ds width "0") = hex_value ds.
Proof.
  intros Hds. unfold rjust. split.
  - apply Forall_app. split; [| assumption].
    apply Forall_forall. intros c Hc. apply repeat_spec in Hc. subst c.
    cbn. tauto.
  - unfold hex_value. now rewrite digits_value_pad by (lia || reflexivity).
Qed.

Lemma convert_to_hex_positive (p : positive) (self : NumberConverter) :
  exists ds : str,
    convert_to_hex (Zpos p) self = (Ok ds, self)
    /\ Forall is_hex_digit ds
    /\ hex_value ds = Zpos p
    /\ 16 ^ (len ds - 1) <= Zpos p < 16 ^ len ds.
Proof.
  destruct (hex_magnitude p) as (ds & Hrun & Hds & Hval & Hlen).
  exists ds. unfold convert_to_hex, bind, lift, ret.
  cbn [Z.eqb Z.ltb Z.compare Z.abs]. now rewrite Hrun.
Qed.

(** The run of [convert_to_hex] on a negative number, step by step:
    [ds] is the numeral of the magnitude, [parts] its inverted digits after
    padding, [r] the outcome of the add-one helper, which is also the
    result. *)
Lemma convert_to_hex_negative (p : positive) (self : NumberConverter) :
  exists (ds : str) (parts : list str) (r : str),
    hex_digits_loop (Zpos p) [] = Ok ds
    /\ mapM invert_hex_digit (rjust ds 10 "0") = Ok parts
    /\ add_one_to_hex (join parts) self = (Ok r, self)
    /\ length r = length (join parts)
    /\ convert_to_hex (Zneg p) self = (Ok (rjust r 10 "F"), self)
    /\ rjust r 10 "F" = r
    /\ Forall is_hex_digit r
    /\ len r = Z.max 10 (len ds)
    /\ 16 ^ (len ds - 1) <= Zpos p < 16 ^ len ds
    /\ hex_value r = 16 ^ len r - Zpos p.
Proof.
  destruct (hex_magnitude p) as (ds & Hrun & Hds & Hval & Hlen).
  destruct (rjust_zero_hex ds 10 Hds) as [Hpad Hpadv].
  destruct (invert_hex_spec _ Hpad) as (parts & Hinv & Hparts & Hplen & Hpval).
  destruct (add_one_to_hex_spec _ self Hparts) as (r & Hadd & Hrlen & Hr & Hrval).
  assert (Hrl : len r = Z.max 10 (len ds)).
  { transitivity (len (join parts)); [unfold len; now rewrite Hrlen |].
    now rewrite Hplen, len_rjust. }
  exists ds, parts, r. repeat split; auto; try lia.
  - unfold convert_to_hex, bind, lift, ret.
    cbn [Z.eqb Z.ltb Z.compare Z.abs].
    rewrite Hrun, Hinv. unfold add_one_to_hex, lift in Hadd.
    unfold add_one_to_hex, lift.
    now injection Hadd as ->.
  - apply rjust_long. lia.
  - rewrite Hrval, Hpval, Hplen, Hpadv, Hval, Hrl, len_rjust.
    assert (16 ^ len ds <= 16 ^ Z.max 10 (len ds))
      by (apply Z.pow_le_mono_r; lia).
    replace (16 ^ Z.max 10 (len ds) - 1 - Z.pos p + 1)
      with (16 ^ Z.max 10 (len ds) - Z.pos p) by lia.
    apply Z.mod_small. lia.
Qed.

(* ================================================================== *)
(** ** Properties of [convert_to_binary]                                *)
(* ================================================================== *)

Lemma pow2_len_le (k bits : Z) (n : Z) :
  0 <= k -> 2 ^ (k - 1) <= n -> n < 2 ^ bits -> 0 < bits -> k <= bits.
Proof.
  intros Hk Hlow Hup Hbits.
  destruct (Z_le_gt_dec k bits) as [H | H]; [assumption | exfalso].
  assert (2 ^ bits <= 2 ^ (k - 1)) by (apply Z.pow_le_mono_r; lia). lia.
Qed.

(** C1: a negative number whose magnitude needs more than [bits] binary
    digits is not cut back to [bits] characters.  With the default width
    [convert_to_binary(-2000)] returns the eleven characters
    ["00000110000"], which is also the binary column that [transform_data]
    computes for a loaded [-2000], and [convert_to_binary(-5, 2)] returns
    ["011"]. *)
Theorem convert_to_binary_wider_than_bits :
  forall self : NumberConverter,
    convert_to_binary (-2000) default_bits self
    = (Ok (lit "00000110000"), self)
    /\ len (lit "00000110000") = 11
    /\ convert_to_binary (-5) 2 self = (Ok (lit "011"), self)
    /\ fst (transform_data (mkNumberConverter (file_path self) [-2000] []))
       = Ok [(-2000, lit "00000110000", lit "FFFFFFF830")].
Proof.
  intros self. split; [reflexivity |]. split; [reflexivity |].
  split; [reflexivity |]. vm_compute. reflexivity.
Qed.

(** C3, as the claim states it, fails at [n = -3], [bits = 2]: the
    magnitude 3 fits in two bits, the result ["01"] has length 2, and it
    reads as 1 in two-bit two's complement. *)
Lemma convert_to_binary_roundtrip_counterexample :
  Z.abs (-3) < 2 ^ 2
  /\ convert_to_binary (-3) 2 (mkNumberConverter [] [] [])
     = (Ok (lit "01"), mkNumberConverter [] [] [])
  /\ signed_of 2 (bin_value (lit "01")) = 1
  /\ signed_of 2 (bin_value (lit "01")) <> -3.
Proof.
  split; [reflexivity |]. split; [reflexivity |].
  split; [reflexivity | vm_compute; discriminate].
Qed.

(** C3 (amended): for a negative [n] and a positive width, the result has
    exactly [bits] characters when [|n| < 2^bits], and it reads back as [n]
    in [bits]-wide two's complement when [|n| <= 2^(bits-1)], that is when
    [n] itself is representable at that width. *)
Theorem convert_to_binary_negative_roundtrip
        (n bits : Z) (self : NumberConverter) :
  n < 0 -> 0 < bits ->
  exists r : str,
    convert_to_binary n bits self = (Ok r, self)
    /\ Forall is_bit r
    /\ (Z.abs n < 2 ^ bits -> len r = bits)
    /\ (Z.abs n <= 2 ^ (bits - 1) -> signed_of bits (bin_value r) = n).
Proof.
  intros Hn Hbits. destruct n as [| p | p]; try lia.
  destruct (convert_to_binary_negative p bits self)
    as (r & Hrun & Hr & Hlen & Hval).
  pose proof (standard_binary_len p) as [Hlow Hup].
  pose proof (len_nonneg (standard_binary p)) as Hk.
  assert (Hfit : Z.pos p < 2 ^ bits -> len r = bits).
  { intros Hlt. pose proof (pow2_len_le _ bits _ Hk Hlow Hlt Hbits). lia. }
  assert (Hpow : 2 ^ bits = 2 * 2 ^ (bits - 1)).
  { replace bits with (bits - 1 + 1) at 1 by lia.
    rewrite Z.pow_add_r, Z.pow_1_r by lia. lia. }
  exists r. repeat split; auto.
  cbn [Z.abs]. intros Hsmall.
  assert (0 < 2 ^ (bits - 1)) by (apply Z.pow_pos_nonneg; lia).
  rewrite Hval, Hfit by lia. unfold signed_of.
  destruct (2 ^ bits - Z.pos p <? 2 ^ (bits - 1)) eqn:E.
  - apply Z.ltb_lt in E. lia.
  - lia.
Qed.

Lemma convert_to_binary_negative_roundtrip_witness :
  -5 < 0 /\ 0 < 10 /\
  exists r : str,
    convert_to_binary (-5) 10 (mkNumberConverter [] [] [])
    = (Ok r, mkNumberConverter [] [] [])
    /\ Forall is_bit r
    /\ (Z.abs (-5) < 2 ^ 10 -> len r = 10)
    /\ (Z.abs (-5) <= 2 ^ (10 - 1) -> signed_of 10 (bin_value r) = -5).
Proof.
  split; [lia | split; [lia |]].
  apply (convert_to_binary_negative_roundtrip (-5) 10); lia.
Defined.

(** A binary numeral without leading zero is determined by its value. *)
Lemma bits_same_length_unique (s t : str) :
  Forall is_bit s -> Forall is_bit t -> length s = length t ->
  bin_value s = bin_value t -> s = t.
Proof.
  unfold bin_value. revert t.
  induction s as [| b s IH] using rev_ind; intros t Hs Ht Hlen Hval.
  - destruct t; [reflexivity | discriminate].
  - destruct t as [| c t] using rev_ind.
    + rewrite length_app in Hlen. cbn in Hlen. lia.
    + clear IHt. apply Forall_app in Hs as [Hs Hb], Ht as [Ht Hc].
      inversion Hb as [| ? ? Hb' _]; inversion Hc as [| ? ? Hc' _]; subst.
      rewrite !length_app in Hlen. cbn in Hlen.
      rewrite !digits_value_snoc in Hval.
      pose proof (bit_value_range b). pose proof (bit_value_range c).
      assert (bit_value b = bit_value c) by lia.
      rewrite (IH t) by (auto; lia).
      f_equal. f_equal.
      destruct Hb' as [-> | ->], Hc' as [-> | ->];
        reflexivity || (cbv in *; lia).
Qed.

Lemma leading_one_len (s : str) :
  hd_error s = Some "1"%char ->
  2 ^ (len s - 1) <= bin_value s < 2 ^ len s.
Proof.
  intros Hhd. split; [| apply bin_value_bounds].
  destruct s as [| c t]; [discriminate |]. injection Hhd as ->.
  unfold bin_value. rewrite digits_value_cons, len_cons by lia.
  replace (len t + 1 - 1) with (len t) by lia.
  change (bit_value "1") with 1.
  pose proof (bin_value_bounds t) as Ht. unfold bin_value in Ht. lia.
Qed.

Lemma binary_numeral_unique (s t : str) :
  Forall is_bit s -> Forall is_bit t ->
  hd_error s = Some "1"%char -> hd_error t = Some "1"%char ->
  bin_value s = bin_value t -> s = t.
Proof.
  intros Hs Ht Hhs Hht Hval.
  apply bits_same_length_unique; auto.
  pose proof (leading_one_len s Hhs) as [Hs1 Hs2].
  pose proof (leading_one_len t Hht) as [Ht1 Ht2].
  rewrite Hval in *.
  assert (len s = len t).
  { pose proof (len_nonneg s). pose proof (len_nonneg t).
    destruct (Z.lt_trichotomy (len s) (len t)) as [H1 | [H1 | H1]];
      [exfalso | assumption | exfalso].
    - assert (2 ^ len s <= 2 ^ (len t - 1))
        by (apply Z.pow_le_mono_r; lia). lia.
    - assert (2 ^ len t <= 2 ^ (len s - 1))
        by (apply Z.pow_le_mono_r; lia). lia. }
  unfold len in *. lia.
Qed.

(** C5: on a positive number the result does not depend on [bits]; it is
    the standard binary numeral of the number: binary digits only, the
    first of them ['1'], denoting [n], and the only such string. *)
Theorem convert_to_binary_positive_standard
        (n bits bits' : Z) (self self' : NumberConverter) :
  0 < n -> 0 < bits -> 0 < bits' ->
  exists s : str,
    convert_to_binary n bits self = (Ok s, self)
    /\ convert_to_binary n bits' self' = (Ok s, self')
    /\ s = standard_binary (Z.to_pos n)
    /\ Forall is_bit s
    /\ hd_error s = Some "1"%char
    /\ bin_value s = n
    /\ (forall t : str,
          Forall is_bit t -> hd_error t = Some "1"%char -> bin_value t = n ->
          t = s).
Proof.
  intros Hn _ _. destruct n as [| p | p]; try lia.
  exists (standard_binary p). cbn [Z.to_pos].
  assert (Hhd : hd_error (standard_binary p) = Some "1"%char)
    by (destruct (standard_binary_head p) as [t ->]; reflexivity).
  repeat split.
  - apply convert_to_binary_positive.
  - apply convert_to_binary_positive.
  - apply standard_binary_bits.
  - exact Hhd.
  - apply standard_binary_value.
  - intros t Ht Hht Hval. apply binary_numeral_unique; auto.
    + apply standard_binary_bits.
    + now rewrite standard_binary_value.
Qed.

Lemma convert_to_binary_positive_standard_witness :
  0 < 5 /\ 0 < 10 /\ 0 < 3 /\
  exists s : str,
    convert_to_binary 5 10 (mkNumberConverter [] [] [])
    = (Ok s, mkNumberConverter [] [] [])
    /\ convert_to_binary 5 3 (mkNumberConverter [] [7] [])
       = (Ok s, mkNumberConverter [] [7] [])
    /\ s = standard_binary (Z.to_pos 5)
    /\ Forall is_bit s
    /\ hd_error s = Some "1"%char
    /\ bin_value s = 5
    /\ (forall t : str,
          Forall is_bit t -> hd_error t = Some "1"%char -> bin_value t = 5 ->
          t = s).
Proof.
  split; [lia | split; [lia | split; [lia |]]].
  apply (convert_to_binary_positive_standard 5 10 3); lia.
Defined.

(** C6: [convert_to_binary(-1, bits)] is [bits] times the character
    ['1'], for every positive [bits]. *)
Theorem convert_to_binary_minus_one (bits : Z) (self : NumberConverter) :
  0 < bits ->
  convert_to_binary (-1) bits self
  = (Ok (repeat "1"%char (Z.to_nat bits)), self).
Proof.
  intros Hbits. unfold convert_to_binary.
  cbn [Z.eqb Z.ltb Z.compare Z.abs Z.opp].
  pose proof (binary_digits_loop_standard 1 []) as Hloop.
  cbn [rev standard_binary] in Hloop. unfold join at 2 in Hloop.
  cbn [concat app] in Hloop. rewrite Hloop.
  rewrite zfill_pad by (intros c rest [= <- _]; split; discriminate).
  change (len ["1"%char]) with 1.
  set (k := Z.to_nat (bits - 1)).
  unfold twos_complement. rewrite join_singletons, map_app, map_repeat.
  cbn [map]. change (invert_bit "0") with "1"%char.
  change (invert_bit "1") with "0"%char.
  unfold bind, binary_add_one, lift.
  assert (Hlen : Z.to_nat (len (repeat "1"%char k ++ ["0"%char])) = S (length (repeat "1"%char k))).
  { unfold len. rewrite Nat2Z.id, length_app. cbn. lia. }
  rewrite Hlen, binary_add_one_loop_other by discriminate.
  cbn [rbind Z.eqb]. rewrite join_chars.
  replace (len (repeat "1"%char k ++ ["0"%char]))
    with (len (repeat "1"%char k ++ ["1"%char]))
    by (rewrite !len_app; reflexivity).
  rewrite slice_from_all. unfold ret.
  rewrite zfill_long by (rewrite len_app, len_repeat; cbn; lia).
  f_equal. f_equal.
  replace (Z.to_nat bits) with (k + 1)%nat by lia.
  now rewrite repeat_app.
Qed.

Lemma convert_to_binary_minus_one_witness :
  0 < 7 /\
  convert_to_binary (-1) 7 (mkNumberConverter [] [] [])
  = (Ok (repeat "1"%char (Z.to_nat 7)), mkNumberConverter [] [] []).
Proof.
  split; [lia |]. apply (convert_to_binary_minus_one 7). lia.
Defined.

(* ================================================================== *)
(** ** Properties of [convert_to_hex]                                   *)
(* ================================================================== *)

Lemma index_In (s : str) (c : ascii) (i : Z) : index s c = Ok i -> In c s.
Proof.
  revert i. induction s as [| x s IH]; intros i; cbn [index]; [discriminate |].
  destruct (Ascii.eqb x c) eqn:E.
  - apply Ascii.eqb_eq in E. intros _. now left.
  - destruct (index s c) as [j | e]; cbn [rbind]; [| discriminate].
    intros _. right. now apply (IH j).
Qed.

Lemma is_hex_digitb_sound (s : str) :
  forallb is_hex_digitb s = true -> Forall is_hex_digit s.
Proof.
  intros H. apply Forall_forall. intros c Hc.
  rewrite forallb_forall in H. specialize (H c Hc).
  unfold is_hex_digitb in H.
  destruct (index hex_digits c) as [i | e] eqn:E; [| discriminate].
  exact (index_In _ _ _ E).
Qed.

Lemma pow16_len_le (k : Z) (n : Z) :
  0 <= k -> 16 ^ (k - 1) <= n -> n < 2 ^ 40 -> k <= 10.
Proof.
  intros Hk Hlow Hup.
  destruct (Z_le_gt_dec k 10) as [H | H]; [assumption | exfalso].
  assert (16 ^ 10 <= 16 ^ (k - 1)) by (apply Z.pow_le_mono_r; lia).
  change (16 ^ 10) with (2 ^ 40) in *. lia.
Qed.

(** C2, as the claim states it, fails twice: [-2^40] is encoded on eleven
    characters, and [-(2^40 - 1)], whose magnitude fits in 40 bits, is
    encoded as ["0000000001"], which reads as 1. *)
Lemma convert_to_hex_roundtrip_counterexample :
  convert_to_hex (- 2 ^ 40) (mkNumberConverter [] [] [])
  = (Ok (lit "F0000000000"), mkNumberConverter [] [] [])
  /\ len (lit "F0000000000") = 11
  /\ Z.abs (- (2 ^ 40 - 1)) < 2 ^ 40
  /\ convert_to_hex (- (2 ^ 40 - 1)) (mkNumberConverter [] [] [])
     = (Ok (lit "0000000001"), mkNumberConverter [] [] [])
  /\ signed_of 40 (hex_value (lit "0000000001")) = 1.
Proof.
  split; [vm_compute; reflexivity |]. split; [reflexivity |].
  split; [reflexivity |]. split; vm_compute; reflexivity.
Qed.

(** C2 (amended): for a negative [n] the result has exactly 10 characters
    when [|n| < 2^40], and it reads back as [n] in 40-bit two's complement
    when [|n| <= 2^39]. *)
Theorem convert_to_hex_negative_roundtrip (n : Z) (self : NumberConverter) :
  n < 0 ->
  exists r : str,
    convert_to_hex n self = (Ok r, self)
    /\ Forall is_hex_digit r
    /\ (Z.abs n < 2 ^ 40 -> len r = 10)
    /\ (Z.abs n <= 2 ^ 39 -> signed_of 40 (hex_value r) = n).
Proof.
  intros Hn. destruct n as [| p | p]; try lia.
  destruct (convert_to_hex_negative p self)
    as (ds & parts & r & _ & _ & _ & _ & Hrun & Hpad & Hr & Hlen & [Hlow Hup] & Hval).
  rewrite Hpad in Hrun.
  pose proof (len_nonneg ds) as Hk.
  assert (Hfit : Z.pos p < 2 ^ 40 -> len r = 10).
  { intros Hlt. pose proof (pow16_len_le _ _ Hk Hlow Hlt). lia. }
  exists r. repeat split; auto.
  cbn [Z.abs]. intros Hsmall.
  rewrite Hval, Hfit by lia. unfold signed_of.
  change (16 ^ 10) with (2 ^ 40). change (2 ^ (40 - 1)) with (2 ^ 39).
  destruct (2 ^ 40 - Z.pos p <? 2 ^ 39) eqn:E.
  - apply Z.ltb_lt in E. lia.
  - lia.
Qed.

Lemma convert_to_hex_negative_roundtrip_witness :
  -255 < 0 /\
  exists r : str,
    convert_to_hex (-255) (mkNumberConverter [] [] [])
    = (Ok r, mkNumberConverter [] [] [])
    /\ Forall is_hex_digit r
    /\ (Z.abs (-255) < 2 ^ 40 -> len r = 10)
    /\ (Z.abs (-255) <= 2 ^ 39 -> signed_of 40 (hex_value r) = -255).
Proof.
  split; [lia |]. apply (convert_to_hex_negative_roundtrip (-255)). lia.
Defined.

(** C4, as the claim states it, fails on the sample digits: the code
    returns ["FFFFFFFF01"] for [-255], not ["FFFFFF0100"]. *)
Lemma convert_to_hex_minus_255_counterexample :
  convert_to_hex (-255) (mkNumberConverter [] [] [])
  = (Ok (lit "FFFFFFFF01"), mkNumberConverter [] [] [])
  /\ lit "FFFFFFFF01" <> lit "FFFFFF0100".
Proof. split; [vm_compute; reflexivity | discriminate]. Qed.

(** C4 (amended): [convert_to_hex(255)] is ["FF"], and
    [convert_to_hex(-255)] is the 10-character string ["FFFFFFFF01"], which
    denotes [2^40 - 255], the two's complement of 255 over 40 bits. *)
Theorem convert_to_hex_255 :
  forall self : NumberConverter,
    convert_to_hex 255 self = (Ok (lit "FF"), self)
    /\ convert_to_hex (-255) self = (Ok (lit "FFFFFFFF01"), self)
    /\ len (lit "FFFFFFFF01") = 10
    /\ hex_value (lit "FFFFFFFF01") = 2 ^ 40 - 255
    /\ signed_of 40 (hex_value (lit "FFFFFFFF01")) = -255.
Proof.
  intros self. split; [vm_compute; reflexivity |].
  split; [vm_compute; reflexivity |]. repeat split.
Qed.

(** C10: the add-one helper returns as many characters as it is given, a
    carry out of the first digit being dropped.  So in the negative branch
    of [convert_to_hex] the closing [rjust(10, 'F')] leaves the string as
    it is, and the result has [max(10, k)] characters, [k] being the number
    of hexadecimal digits of [|n|]. *)
Theorem add_one_to_hex_keeps_length
        (hex_string : str) (n : Z) (self : NumberConverter) :
  forallb is_hex_digitb hex_string = true -> n < 0 ->
  (exists r : str,
     add_one_to_hex hex_string self = (Ok r, self)
     /\ length r = length hex_string)
  /\ add_one_to_hex (lit "FFFFFFFFFF") self = (Ok (lit "0000000000"), self)
  /\ (exists (ds : str) (parts : list str) (r : str),
        hex_digits_loop (Z.abs n) [] = Ok ds
        /\ 16 ^ (len ds - 1) <= Z.abs n < 16 ^ len ds
        /\ mapM invert_hex_digit (rjust ds 10 "0") = Ok parts
        /\ add_one_to_hex (join parts) self = (Ok r, self)
        /\ length r = length (join parts)
        /\ rjust r 10 "F" = r
        /\ convert_to_hex n self = (Ok r, self)
        /\ len r = Z.max 10 (len ds)).
Proof.
  intros Hhex Hn. split; [| split].
  - destruct (add_one_to_hex_spec hex_string self (is_hex_digitb_sound _ Hhex))
      as (r & Hrun & Hlen & _). now exists r.
  - reflexivity.
  - destruct n as [| p | p]; try lia.
    destruct (convert_to_hex_negative p self)
      as (ds & parts & r & Hds & Hinv & Hadd & Hlen1 & Hrun & Hpad & _ & Hlen & Hk & _).
    exists ds, parts, r. rewrite Hpad in Hrun. cbn [Z.abs].
    repeat split; auto; lia.
Qed.

Lemma add_one_to_hex_keeps_length_witness :
  forallb is_hex_digitb (lit "0FFF") = true /\ -4096 < 0 /\
  (exists r : str,
     add_one_to_hex (lit "0FFF") (mkNumberConverter [] [] [])
     = (Ok r, mkNumberConverter [] [] [])
     /\ length r = length (lit "0FFF"))
  /\ add_one_to_hex (lit "FFFFFFFFFF") (mkNumberConverter [] [] [])
     = (Ok (lit "0000000000"), mkNumberConverter [] [] [])
  /\ (exists (ds : str) (parts : list str) (r : str),
        hex_digits_loop (Z.abs (-4096)) [] = Ok ds
        /\ 16 ^ (len ds - 1) <= Z.abs (-4096) < 16 ^ len ds
        /\ mapM invert_hex_digit (rjust ds 10 "0") = Ok parts
        /\ add_one_to_hex (join parts) (mkNumberConverter [] [] [])
           = (Ok r, mkNumberConverter [] [] [])
        /\ length r = length (join parts)
        /\ rjust r 10 "F" = r
        /\ convert_to_hex (-4096) (mkNumberConverter [] [] [])
           = (Ok r, mkNumberConverter [] [] [])
        /\ len r = Z.max 10 (len ds)).
Proof.
  split; [reflexivity | split; [lia |]].
  apply (add_one_to_hex_keeps_length (lit "0FFF") (-4096));
    [reflexivity | lia].
Defined.

(* ================================================================== *)
(** ** Termination and absence of exceptions                            *)
(* ================================================================== *)

Lemma bit_length_div (n d : Z) :
  0 < n -> 2 <= d -> (bit_length (n / d) < bit_length n)%nat.
Proof. intros Hn Hd. bit_length_decreases n d. Qed.

Lemma while_fuel_more {S : Type} (cond : S -> bool) (body : S -> outcome S)
      (fuel fuel' : nat) (s : S) (r : outcome S) :
  while_fuel fuel cond body s = Some r -> (fuel <= fuel')%nat ->
  while_fuel fuel' cond body s = Some r.
Proof.
  revert fuel' s. induction fuel as [| fuel IH]; intros fuel' s Hrun Hle;
    [discriminate |].
  destruct fuel' as [| fuel']; [lia |]. cbn [while_fuel] in *.
  destruct (cond s); [| assumption].
  destruct (body s); [| assumption].
  apply IH; [assumption | lia].
Qed.

(** The loop of [convert_to_binary] is left after at most
    [bit_length n + 1] tests of [n > 0], with the digits that
    [binary_digits_loop] computes. *)
Lemma binary_loop_terminates (n : Z) :
  forall ds : list str,
    exists n' : Z,
      while_fuel (S (bit_length n)) binary_cond binary_body (n, ds)
      = Some (Ok (n', binary_digits_loop n ds)).
Proof.
  destruct (Z_le_gt_dec n 0) as [Hn | Hn].
  - intros ds. exists n. cbn [while_fuel]. unfold binary_cond. cbn [fst].
    rewrite binary_digits_loop_nonpos by assumption.
    destruct (n >? 0) eqn:E; [apply Z.gtb_lt in E; lia | reflexivity].
  - revert Hn. pattern n. apply (well_founded_induction (Z.lt_wf 0)). clear n.
    intros n IH Hn ds. rewrite binary_digits_loop_eq.
    cbn [while_fuel]. unfold binary_cond at 1. cbn [fst].
    assert (E : (n >? 0) = true) by (apply Z.gtb_lt; lia). rewrite E.
    cbn [binary_body].
    pose proof (bit_length_div n 2 ltac:(lia) ltac:(lia)) as Hdec.
    assert (Hq : 0 <= n / 2 < n)
      by (split; [apply Z.div_pos | apply Z.div_lt]; lia).
    destruct (Z_le_gt_dec (n / 2) 0) as [Hz | Hpos].
    + exists (n / 2). destruct (bit_length n) as [| k]; [lia |].
      cbn [while_fuel]. unfold binary_cond. cbn [fst].
      rewrite binary_digits_loop_nonpos by assumption.
      destruct (n / 2 >? 0) eqn:E2; [apply Z.gtb_lt in E2; lia | reflexivity].
    + destruct (IH (n / 2) Hq Hpos (ds ++ [str_of_digit (n mod 2)]))
        as (n' & Hrun).
      exists n'. eapply while_fuel_more; [exact Hrun | lia].
Qed.

(** The same for the loop of [convert_to_hex], whose body does not
    raise. *)
Lemma hex_loop_terminates (n : Z) :
  forall hex_string : str,
    exists (n' : Z) (r : str),
      hex_digits_loop n hex_string = Ok r
      /\ while_fuel (S (bit_length n)) hex_cond hex_body (n, hex_string)
         = Some (Ok (n', r)).
Proof.
  destruct (Z_le_gt_dec n 0) as [Hn | Hn].
  - intros hs. exists n, hs. rewrite hex_digits_loop_eq.
    cbn [while_fuel]. unfold hex_cond. cbn [fst].
    destruct (n >? 0) eqn:E; [apply Z.gtb_lt in E; lia | split; reflexivity].
  - revert Hn. pattern n. apply (well_founded_induction (Z.lt_wf 0)). clear n.
    intros n IH Hn hs. rewrite hex_digits_loop_eq.
    cbn [while_fuel]. unfold hex_cond at 1. cbn [fst].
    assert (E : (n >? 0) = true) by (apply Z.gtb_lt; lia). rewrite E.
    cbn [hex_body].
    assert (Hmod : 0 <= n mod 16 < 16) by (apply Z.mod_pos_bound; lia).
    destruct (hex_getitem _ Hmod) as (c & Hget & _). rewrite Hget.
    cbn [rbind].
    pose proof (bit_length_div n 16 ltac:(lia) ltac:(lia)) as Hdec.
    assert (Hq : 0 <= n / 16 < n)
      by (split; [apply Z.div_pos | apply Z.div_lt]; lia).
    destruct (Z_le_gt_dec (n / 16) 0) as [Hz | Hpos].
    + exists (n / 16), ([c] ++ hs). rewrite hex_digits_loop_eq.
      destruct (bit_length n) as [| k]; [lia |].
      cbn [while_fuel]. unfold hex_cond. cbn [fst].
      destruct (n / 16 >? 0) eqn:E2;
        [apply Z.gtb_lt in E2; lia | split; reflexivity].
    + destruct (IH (n / 16) Hq Hpos ([c] ++ hs)) as (n' & r & Hr & Hrun).
      exists n', r. split; [assumption |].
      eapply while_fuel_more; [exact Hrun | lia].
Qed.

(** C7: both conversions return a string on every integer, for every
    [bits]; no exception is raised, and each magnitude loop is left after
    at most [bit_length |value| + 1] tests of its condition. *)
Theorem conversions_total (value bits : Z) (self : NumberConverter) :
  (exists s : str, convert_to_binary value bits self = (Ok s, self))
  /\ (exists s : str, convert_to_hex value self = (Ok s, self))
  /\ (exists n' : Z,
        while_fuel (S (bit_length (Z.abs value))) binary_cond binary_body
                   (Z.abs value, [])
        = Some (Ok (n', binary_digits_loop (Z.abs value) [])))
  /\ (exists (n' : Z) (r : str),
        hex_digits_loop (Z.abs value) [] = Ok r
        /\ while_fuel (S (bit_length (Z.abs value))) hex_cond hex_body
                      (Z.abs value, [])
           = Some (Ok (n', r))).
Proof.
  split; [| split; [| split]].
  - destruct value as [| p | p].
    + now exists (lit "0").
    + exists (standard_binary p). apply convert_to_binary_positive.
    + destruct (convert_to_binary_negative p bits self) as (r & Hrun & _).
      now exists r.
  - destruct value as [| p | p].
    + now exists (lit "0").
    + destruct (convert_to_hex_positive p self) as (r & Hrun & _).
      now exists r.
    + destruct (convert_to_hex_negative p self)
        as (ds & parts & r & _ & _ & _ & _ & Hrun & Hpad & _).
      rewrite Hpad in Hrun. now exists r.
  - apply binary_loop_terminates.
  - apply hex_loop_terminates.
Qed.

(* ================================================================== *)
(** ** The conversions and the fields of the object                     *)
(* ================================================================== *)

Lemma stateless_ret {A} (a : A) : stateless (ret a).
Proof. now exists (Ok a). Qed.

Lemma stateless_lift {A} (r : outcome A) : stateless (lift r).
Proof. now exists r. Qed.

Lemma stateless_bind {A B} (m : M A) (k : A -> M B) :
  stateless m -> (forall a, stateless (k a)) -> stateless (bind m k).
Proof.
  intros [r Hm] Hk. unfold bind. destruct r as [a | e].
  - destruct (Hk a) as [r' Hr']. exists r'. intros self.
    now rewrite Hm, Hr'.
  - exists (Raise e). intros self. now rewrite Hm.
Qed.

Lemma stateless_binary_add_one (binary : str) : stateless (binary_add_one binary).
Proof. apply stateless_lift. Qed.

Lemma stateless_twos_complement (binary : str) (bits : Z) :
  stateless (twos_complement binary bits).
Proof.
  apply stateless_bind; [apply stateless_binary_add_one |].
  intros a. apply stateless_ret.
Qed.

Lemma stateless_convert_to_binary (number bits : Z) :
  stateless (convert_to_binary number bits).
Proof.
  unfold convert_to_binary.
  destruct (number =? 0); [apply stateless_ret |].
  destruct (number <? 0); [apply stateless_twos_complement |].
  apply stateless_ret.
Qed.

Lemma stateless_add_one_to_hex (hex_string : str) :
  stateless (add_one_to_hex hex_string).
Proof. apply stateless_lift. Qed.

Lemma stateless_convert_to_hex (number : Z) : stateless (convert_to_hex number).
Proof.
  unfold convert_to_hex.
  destruct (number =? 0); [apply stateless_ret |].
  apply stateless_bind; [apply stateless_lift |]. intros hex_string.
  destruct (number <? 0); [| apply stateless_ret].
  apply stateless_bind; [apply stateless_lift |]. intros parts.
  apply stateless_bind; [apply stateless_add_one_to_hex |]. intros r.
  apply stateless_ret.
Qed.

(** C8: a call of [convert_to_binary] or [convert_to_hex] leaves
    [file_path], [data] and [line_errors] as they were, its result does not
    depend on them, and a second call with the same arguments returns the
    same result. *)
Theorem conversions_pure (number bits : Z) (self other : NumberConverter) :
  let after_binary := snd (convert_to_binary number bits self) in
  let after_hex := snd (convert_to_hex number self) in
  (file_path after_binary = file_path self
   /\ data after_binary = data self
   /\ line_errors after_binary = line_errors self)
  /\ (file_path after_hex = file_path self
      /\ data after_hex = data self
      /\ line_errors after_hex = line_errors self)
  /\ fst (convert_to_binary number bits after_binary)
     = fst (convert_to_binary number bits self)
  /\ fst (convert_to_hex number after_hex) = fst (convert_to_hex number self)
  /\ fst (convert_to_binary number bits other)
     = fst (convert_to_binary number bits self)
  /\ fst (convert_to_hex number other) = fst (convert_to_hex number self).
Proof.
  destruct (stateless_convert_to_binary number bits) as [b Hb].
  destruct (stateless_convert_to_hex number) as [h Hh].
  cbn zeta. rewrite !Hb, !Hh. cbn [fst snd]. rewrite ?Hb, ?Hh.
  repeat split.
Qed.

(* ================================================================== *)
(** ** Construction and loading                                         *)
(* ================================================================== *)

Section LoaderProperties.

Variable strip : str -> str.
Variable int_of_str : str -> option Z.

(** What [__validate_input] makes of a line. *)
Let number_of (line : str) : option Z := int_of_str (strip line).

Lemma load_data_loop_spec (file : list str) :
  forall (i : Z) (self : NumberConverter),
    load_data_loop strip int_of_str i file self
    = (Ok tt,
       mkNumberConverter (file_path self)
         (data self ++ accepted number_of file)
         (line_errors self ++ rejected number_of i file)).
Proof.
  induction file as [| line rest IH]; intros i self.
  - cbn. rewrite !app_nil_r. now destruct self.
  - cbn [load_data_loop accepted rejected]. unfold bind at 1.
    unfold bind at 1. unfold validate_input. fold (number_of line).
    destruct (number_of line) as [n |]; cbn.
    + rewrite IH. cbn. now rewrite <- app_assoc.
    + rewrite IH. cbn. now rewrite <- app_assoc.
Qed.

Lemma accepted_rejected_length (file : list str) (i : Z) :
  (length (accepted number_of file) + length (rejected number_of i file)
   = length file)%nat.
Proof.
  revert i. induction file as [| line rest IH]; intros i; [reflexivity |].
  cbn. specialize (IH (i + 1)).
  destruct (number_of line); cbn; lia.
Qed.

Lemma rejected_index (file : list str) (i j : Z) (line : str) :
  In (j, line) (rejected number_of i file) ->
  i <= j /\ nth_error file (Z.to_nat (j - i)) = Some line
  /\ number_of line = None.
Proof.
  revert i. induction file as [| l rest IH]; intros i; cbn; [tauto |].
  assert (Hrest : In (j, line) (rejected number_of (i + 1) rest) ->
                  i <= j /\ nth_error (l :: rest) (Z.to_nat (j - i)) = Some line
                  /\ number_of line = None).
  { intros H. destruct (IH _ H) as (Hle & Hnth & Hnone).
    replace (Z.to_nat (j - i)) with (S (Z.to_nat (j - (i + 1)))) by lia.
    repeat split; auto. lia. }
  destruct (number_of l) eqn:E; [exact Hrest |].
  intros [[= <- <-] | H]; [| now apply Hrest].
  replace (Z.to_nat (i - i)) with 0%nat by lia. repeat split; auto. lia.
Qed.

Lemma classified (file : list str) (i : Z) (k : nat) (line : str) :
  nth_error file k = Some line ->
  match number_of line with
  | Some n => In n (accepted number_of file)
              /\ ~ In (i + Z.of_nat k, line) (rejected number_of i file)
  | None => In (i + Z.of_nat k, line) (rejected number_of i file)
  end.
Proof.
  intros Hnth.
  destruct (number_of line) as [n |] eqn:E.
  - split.
    + clear i. revert k Hnth.
      induction file as [| l rest IH]; intros k Hnth;
        [destruct k; discriminate |].
      destruct k as [| k]; cbn in *.
      * injection Hnth as ->. rewrite E. now left.
      * destruct (number_of l); [right |]; eapply IH; eassumption.
    + intros Hin. apply rejected_index in Hin. destruct Hin as (_ & _ & Hn).
      congruence.
  - revert i k Hnth.
    induction file as [| l rest IH]; intros i k Hnth;
      [destruct k; discriminate |].
    destruct k as [| k]; cbn in *.
    + injection Hnth as ->. rewrite E. left. f_equal. lia.
    + specialize (IH (i + 1) k Hnth).
      replace (i + Z.pos (Pos.of_succ_nat k)) with (i + 1 + Z.of_nat k) by lia.
      destruct (number_of l); [| right]; exact IH.
Qed.

Variable fs : str -> option (list str).

Lemma init_spec (path : str) (self0 : NumberConverter) :
  init fs strip int_of_str path self0
  = match fs path with
    | Some file =>
        (Ok tt, mkNumberConverter path (accepted number_of file)
                  (rejected number_of 0 file))
    | None => (Raise FileNotFoundError, mkNumberConverter path [] [])
    end.
Proof.
  unfold init, load_data, validate_file_exists, isfile, bind, get_self,
    put_self, raise, ret. cbn.
  destruct (fs path) as [file |] eqn:E; cbn; rewrite ?E; [| reflexivity].
  now rewrite load_data_loop_spec.
Qed.

End LoaderProperties.

(** C9: when the path names a file, every line goes to exactly one of the
    two collections: the number it parses to is in [data], or else the
    pair of its index and its text is in [line_errors]; the collections
    keep the order of the file and together have one entry for each line.
    When the path names no file, construction raises [FileNotFoundError]
    and the two collections of the object under construction are empty. *)
Theorem loader_classifies_lines
        (fs : str -> option (list str)) (strip : str -> str)
        (int_of_str : str -> option Z)
        (path : str) (self0 : NumberConverter) :
  let number_of := fun line => int_of_str (strip line) in
  match fs path with
  | Some file =>
      init fs strip int_of_str path self0
      = (Ok tt, mkNumberConverter path (accepted number_of file)
                  (rejected number_of 0 file))
      /\ new_NumberConverter fs strip int_of_str path
         = Ok (mkNumberConverter path (accepted number_of file)
                 (rejected number_of 0 file))
      /\ (length (accepted number_of file)
          + length (rejected number_of 0 file) = length file)%nat
      /\ (forall (k : nat) (line : str),
            nth_error file k = Some line ->
            match number_of line with
            | Some n =>
                In n (accepted number_of file)
                /\ ~ In (Z.of_nat k, line) (rejected number_of 0 file)
            | None => In (Z.of_nat k, line) (rejected number_of 0 file)
            end)
      /\ (forall (j : Z) (line : str),
            In (j, line) (rejected number_of 0 file) ->
            nth_error file (Z.to_nat j) = Some line
            /\ number_of line = None)
  | None =>
      init fs strip int_of_str path self0
      = (Raise FileNotFoundError, mkNumberConverter path [] [])
      /\ new_NumberConverter fs strip int_of_str path
         = Raise FileNotFoundError
  end.
Proof.
  cbn zeta. unfold new_NumberConverter. rewrite !init_spec.
  destruct (fs path) as [file |]; [| split; reflexivity].
  split; [reflexivity |]. split; [reflexivity |].
  split; [apply accepted_rejected_length |]. split.
  - intros k line Hnth.
    exact (classified strip int_of_str file 0 k line Hnth).
  - intros j line Hin.
    destruct (rejected_index strip int_of_str file 0 j line Hin)
      as (Hle & Hnth & Hnone).
    rewrite Z.sub_0_r in Hnth. auto.
Qed.

Lemma loader_classifies_lines_witness :
  new_NumberConverter sample_fs ascii_strip decimal_int (lit "data.txt")
  = Ok (mkNumberConverter (lit "data.txt") [12; -3]
          [(1, lit "abc" ++ [newline]); (3, lit "4.5")])
  /\ new_NumberConverter sample_fs ascii_strip decimal_int (lit "none.txt")
     = Raise FileNotFoundError.
Proof.
  split.
  - exact (proj1 (proj2 (loader_classifies_lines
                           sample_fs ascii_strip decimal_int (lit "data.txt")
                           (mkNumberConverter [] [] [])))).
  - exact (proj2 (loader_classifies_lines
                    sample_fs ascii_strip decimal_int (lit "none.txt")
                    (mkNumberConverter [] [] []))).
Defined.

(* ================================================================== *)
(** ** Further properties of [convert_to_binary]                        *)
(* ================================================================== *)

Lemma standard_binary_log2 (p : positive) :
  len (standard_binary p) = Z.log2 (Zpos p) + 1.
Proof.
  pose proof (standard_binary_len p) as [Hlow Hup].
  pose proof (len_nonneg (standard_binary p)) as Hk.
  destruct (standard_binary_head p) as [t Ht].
  assert (0 < len (standard_binary p))
    by (rewrite Ht, len_cons; pose proof (len_nonneg t); lia).
  rewrite (Z.log2_unique (Zpos p) (len (standard_binary p) - 1)); [lia | lia |].
  replace (Z.succ (len (standard_binary p) - 1))
    with (len (standard_binary p)) by lia.
  lia.
Qed.

Lemma bin_value_ones (m : nat) :
  bin_value (repeat "1"%char m) = 2 ^ Z.of_nat m - 1.
Proof.
  unfold bin_value. induction m as [| m IH]; [reflexivity |].
  cbn [repeat]. rewrite digits_value_cons, IH, len_repeat by lia.
  change (bit_value "1") with 1.
  rewrite Nat2Z.inj_succ, Z.pow_succ_r by lia. lia.
Qed.

Lemma bits_repeat (c : ascii) (m : nat) :
  is_bit c -> Forall is_bit (repeat c m).
Proof.
  intros Hc. apply Forall_forall. intros x Hx.
  apply repeat_spec in Hx. now subst.
Qed.

(** The string [convert_to_binary] returns is never empty and holds the
    characters ['0'] and ['1'] only, whatever the number and the width. *)
Theorem convert_to_binary_alphabet (number bits : Z) (self : NumberConverter) :
  exists r : str,
    convert_to_binary number bits self = (Ok r, self)
    /\ r <> [] /\ Forall is_bit r.
Proof.
  destruct number as [| p | p].
  - exists (lit "0"). repeat split; [discriminate |].
    constructor; [now left | constructor].
  - exists (standard_binary p). split; [apply convert_to_binary_positive |].
    split; [| apply standard_binary_bits].
    destruct (standard_binary_head p) as [t ->]. discriminate.
  - destruct (convert_to_binary_negative p bits self)
      as (r & Hrun & Hr & Hlen & _).
    exists r. repeat split; auto. intros ->.
    pose proof (standard_binary_len p) as [_ Hup].
    destruct (standard_binary_head p) as [t Ht].
    rewrite Ht, len_cons in Hlen. pose proof (len_nonneg t).
    change (len (@nil ascii)) with 0 in Hlen. lia.
Qed.

(** On a positive number the result has [log2 n + 1] characters, the least
    number of binary digits that [n] can be written with. *)
Theorem convert_to_binary_positive_length
        (n bits : Z) (self : NumberConverter) :
  0 < n ->
  exists r : str,
    convert_to_binary n bits self = (Ok r, self)
    /\ len r = Z.log2 n + 1
    /\ 2 ^ (len r - 1) <= n < 2 ^ len r.
Proof.
  intros Hn. destruct n as [| p | p]; try lia.
  exists (standard_binary p). split; [apply convert_to_binary_positive |].
  split; [apply standard_binary_log2 | apply standard_binary_len].
Qed.

Lemma convert_to_binary_positive_length_witness :
  0 < 1000 /\
  exists r : str,
    convert_to_binary 1000 3 (mkNumberConverter [] [] [])
    = (Ok r, mkNumberConverter [] [] [])
    /\ len r = Z.log2 1000 + 1
    /\ 2 ^ (len r - 1) <= 1000 < 2 ^ len r.
Proof.
  split; [lia |]. apply (convert_to_binary_positive_length 1000 3). lia.
Defined.

(** On a negative number, whatever the width: the result is as long as the
    wider of [bits] and the binary numeral of [|n|], and as an unsigned
    binary number it is [n] modulo [2 ^ length]. *)
Theorem convert_to_binary_negative_modular
        (n bits : Z) (self : NumberConverter) :
  n < 0 ->
  exists r : str,
    convert_to_binary n bits self = (Ok r, self)
    /\ len r = Z.max bits (Z.log2 (- n) + 1)
    /\ bin_value r = n mod 2 ^ len r.
Proof.
  intros Hn. destruct n as [| p | p]; try lia.
  destruct (convert_to_binary_negative p bits self)
    as (r & Hrun & Hr & Hlen & Hval).
  exists r. split; [assumption |]. cbn [Z.opp].
  rewrite <- standard_binary_log2. split; [assumption |].
  pose proof (standard_binary_len p) as [_ Hup].
  assert (2 ^ len (standard_binary p) <= 2 ^ len r)
    by (apply Z.pow_le_mono_r; lia).
  rewrite Hval. apply (Z.mod_unique _ _ (-1)); lia.
Qed.

Lemma convert_to_binary_negative_modular_witness :
  -2000 < 0 /\
  exists r : str,
    convert_to_binary (-2000) 10 (mkNumberConverter [] [] [])
    = (Ok r, mkNumberConverter [] [] [])
    /\ len r = Z.max 10 (Z.log2 (- (-2000)) + 1)
    /\ bin_value r = (-2000) mod 2 ^ len r.
Proof.
  split; [lia |]. apply (convert_to_binary_negative_modular (-2000) 10). lia.
Defined.

(** The sign is not kept: within the range of the width a negative number
    is encoded exactly as the positive number [2^bits + n] is. *)
Theorem convert_to_binary_sign_collision
        (n bits : Z) (self : NumberConverter) :
  n < 0 -> 0 < bits -> - n <= 2 ^ (bits - 1) ->
  convert_to_binary n bits self = convert_to_binary (2 ^ bits + n) bits self.
Proof.
  intros Hn Hbits Hsmall. destruct n as [| p | p]; try lia.
  cbn [Z.opp] in Hsmall.
  destruct (convert_to_binary_negative p bits self)
    as (r & Hrun & Hr & Hlen & Hval).
  assert (Hpow : 2 ^ bits = 2 * 2 ^ (bits - 1)).
  { replace bits with (bits - 1 + 1) at 1 by lia.
    rewrite Z.pow_add_r, Z.pow_1_r by lia. lia. }
  assert (Hp1 : 0 < 2 ^ (bits - 1)) by (apply Z.pow_pos_nonneg; lia).
  pose proof (standard_binary_len p) as [Hlow Hup].
  pose proof (len_nonneg (standard_binary p)) as Hk.
  assert (Hfit : len (standard_binary p) <= bits).
  { apply (pow2_len_le _ bits (Z.pos p)); lia. }
  assert (Hlenr : len r = bits) by lia.
  rewrite Hlenr in Hval.
  remember (2 ^ bits + Z.neg p) as m eqn:Hm.
  destruct m as [| q | q]; try lia.
  rewrite Hrun, convert_to_binary_positive. f_equal. f_equal.
  pose proof (standard_binary_len q) as [Hlowq Hupq].
  pose proof (len_nonneg (standard_binary q)) as Hkq.
  assert (len (standard_binary q) = bits).
  { destruct (Z.lt_trichotomy (len (standard_binary q)) bits)
      as [H1 | [H1 | H1]]; [exfalso | assumption | exfalso].
    - assert (2 ^ len (standard_binary q) <= 2 ^ (bits - 1))
        by (apply Z.pow_le_mono_r; lia). lia.
    - assert (2 ^ bits <= 2 ^ (len (standard_binary q) - 1))
        by (apply Z.pow_le_mono_r; lia). lia. }
  apply bits_same_length_unique; auto.
  - apply standard_binary_bits.
  - unfold len in *. lia.
  - rewrite standard_binary_value, Hval. lia.
Qed.

Lemma convert_to_binary_sign_collision_witness :
  -5 < 0 /\ 0 < 10 /\ - (-5) <= 2 ^ (10 - 1) /\
  convert_to_binary (-5) 10 (mkNumberConverter [] [] [])
  = convert_to_binary (2 ^ 10 + -5) 10 (mkNumberConverter [] [] []).
Proof.
  split; [lia | split; [lia | split; [vm_compute; discriminate |]]].
  apply (convert_to_binary_sign_collision (-5) 10); [lia | lia |].
  vm_compute; discriminate.
Defined.

(** Carry cascade: for [0 <= k < bits], the encoding of [- 2^k] is
    [bits - k] times ['1'] followed by [k] times ['0']. *)
Theorem convert_to_binary_minus_power_of_two
        (k bits : Z) (self : NumberConverter) :
  0 <= k < bits ->
  convert_to_binary (- 2 ^ k) bits self
  = (Ok (repeat "1"%char (Z.to_nat (bits - k))
         ++ repeat "0"%char (Z.to_nat k)), self).
Proof.
  intros Hk.
  assert (Hpk : 0 < 2 ^ k) by (apply Z.pow_pos_nonneg; lia).
  remember (- 2 ^ k) as n eqn:Hn.
  destruct n as [| p | p]; try lia.
  assert (Hp : Z.pos p = 2 ^ k) by lia.
  destruct (convert_to_binary_negative p bits self)
    as (r & Hrun & Hr & Hlen & Hval).
  rewrite standard_binary_log2, Hp, Z.log2_pow2 in Hlen by lia.
  assert (Hlenr : len r = bits) by lia.
  rewrite Hrun. f_equal. f_equal.
  apply bits_same_length_unique; auto.
  - apply Forall_app. split; apply bits_repeat; [now right | now left].
  - rewrite length_app, !repeat_length. unfold len in Hlenr. lia.
  - unfold bin_value at 2. rewrite digits_value_app by lia.
    fold (bin_value (repeat "1"%char (Z.to_nat (bits - k)))).
    rewrite bin_value_ones, digits_value_zeros by (lia || reflexivity).
    rewrite len_repeat, !Z2Nat.id by lia.
    rewrite Hval, Hlenr, Hp.
    replace bits with (bits - k + k) at 1 by lia.
    rewrite Z.pow_add_r by lia. lia.
Qed.

Lemma convert_to_binary_minus_power_of_two_witness :
  0 <= 3 < 10 /\
  convert_to_binary (- 2 ^ 3) 10 (mkNumberConverter [] [] [])
  = (Ok (repeat "1"%char (Z.to_nat (10 - 3))
         ++ repeat "0"%char (Z.to_nat 3)), mkNumberConverter [] [] []).
Proof.
  split; [lia |]. apply (convert_to_binary_minus_power_of_two 3 10). lia.
Defined.

(* ================================================================== *)
(** ** Further properties of the add-one helpers                        *)
(* ================================================================== *)

Lemma repeat_snoc {A} (x : A) (k : nat) :
  repeat x (S k) = repeat x k ++ [x].
Proof. rewrite <- repeat_cons. reflexivity. Qed.

(** The loop turns the ['1']s at the end of the string into ['0']s and
    goes on with the carry. *)
Lemma binary_add_one_loop_ones (k : nat) :
  forall pre suf : str,
    binary_add_one_loop (length pre + k) (pre ++ repeat "1"%char k ++ suf) 1
    = binary_add_one_loop (length pre) (pre ++ repeat "0"%char k ++ suf) 1.
Proof.
  induction k as [| k IH]; intros pre suf.
  - now rewrite Nat.add_0_r.
  - rewrite !repeat_snoc, <- !app_assoc. cbn [app].
    replace (length pre + S k)%nat
      with (S (length (pre ++ repeat "1"%char k)))
      by (rewrite length_app, repeat_length; lia).
    rewrite (app_assoc pre (repeat "1"%char k)).
    rewrite binary_add_one_loop_one.
    rewrite length_app, repeat_length, <- app_assoc.
    apply IH.
Qed.

(** [__binary_add_one] on any string that has a character other than
    ['1']: the last such character becomes ['1'], the ['1']s after it
    become ['0'], and what is before it is returned as it is. *)
Theorem binary_add_one_absorbs
        (pre : str) (b : ascii) (k : nat) (self : NumberConverter) :
  b <> "1"%char ->
  binary_add_one (pre ++ b :: repeat "1"%char k) self
  = (Ok (pre ++ "1"%char :: repeat "0"%char k), self).
Proof.
  intros Hb. unfold binary_add_one, lift. f_equal.
  assert (Hlen : forall c d : ascii,
             len (pre ++ c :: repeat d k) = Z.of_nat (S (length pre) + k)).
  { intros c d. unfold len. rewrite length_app. cbn [length].
    rewrite repeat_length. lia. }
  rewrite (Hlen b "1"%char), Nat2Z.id.
  change (pre ++ b :: repeat "1"%char k)
    with (pre ++ [b] ++ repeat "1"%char k).
  rewrite app_assoc.
  replace (S (length pre) + k)%nat with (length (pre ++ [b]) + k)%nat
    by (rewrite length_app; cbn; lia).
  rewrite <- (app_nil_r (repeat "1"%char k)).
  rewrite binary_add_one_loop_ones.
  rewrite app_nil_r, <- app_assoc. cbn [app].
  rewrite length_app. cbn [length]. rewrite Nat.add_1_r.
  rewrite binary_add_one_loop_other by assumption.
  cbn [rbind Z.eqb]. rewrite join_chars.
  rewrite <- (Hlen "1"%char "0"%char). now rewrite slice_from_all.
Qed.

Lemma binary_add_one_absorbs_witness :
  "x"%char <> "1"%char /\
  binary_add_one (lit "10" ++ "x"%char :: repeat "1"%char 2)
                 (mkNumberConverter [] [] [])
  = (Ok (lit "10" ++ "1"%char :: repeat "0"%char 2),
     mkNumberConverter [] [] []).
Proof.
  split; [discriminate |].
  apply (binary_add_one_absorbs (lit "10") "x" 2). discriminate.
Defined.

(** [__binary_add_one] on a string of ['1']s only: the carry out of the
    first digit is dropped and the result is as many ['0']s; but on the
    empty string the slice [[-0:]] keeps the inserted digit and the result
    is ["1"]. *)
Theorem binary_add_one_overflow (k : nat) (self : NumberConverter) :
  binary_add_one (repeat "1"%char k) self
  = (Ok (match k with O => lit "1" | S _ => repeat "0"%char k end), self).
Proof.
  unfold binary_add_one, lift. f_equal.
  rewrite len_repeat, Nat2Z.id.
  pose proof (binary_add_one_loop_ones k [] []) as Hloop.
  cbn [length app Nat.add] in Hloop. rewrite !app_nil_r in Hloop.
  rewrite Hloop. cbn [binary_add_one_loop rbind Z.eqb Pos.eqb].
  rewrite join_chars. destruct k as [| k]; [reflexivity |].
  rewrite <- (len_repeat "0"%char (S k)).
  now rewrite slice_from_drop_first by discriminate.
Qed.

(** On a string of binary digits [__binary_add_one] keeps the length and
    adds one modulo [2 ^ length]. *)
Theorem binary_add_one_modular (s : str) (self : NumberConverter) :
  s <> [] -> Forall is_bit s ->
  exists r : str,
    binary_add_one s self = (Ok r, self)
    /\ len r = len s
    /\ Forall is_bit r
    /\ bin_value r = (bin_value s + 1) mod 2 ^ len s.
Proof.
  intros Hne Hs.
  destruct (binary_add_one_spec s self Hne Hs) as (r & Hrun & Hlen & Hr & Hval).
  exists r. repeat split; auto. unfold len. now rewrite Hlen.
Qed.

Lemma is_bit_dec (s : str) :
  forallb (fun c => Ascii.eqb c "0" || Ascii.eqb c "1") s = true ->
  Forall is_bit s.
Proof.
  intros H. apply Forall_forall. intros c Hc.
  rewrite forallb_forall in H. specialize (H c Hc).
  apply orb_true_iff in H as [H | H]; apply Ascii.eqb_eq in H; subst;
    [now left | now right].
Qed.

Lemma binary_add_one_modular_witness :
  lit "0111" <> [] /\ Forall is_bit (lit "0111") /\
  exists r : str,
    binary_add_one (lit "0111") (mkNumberConverter [] [] [])
    = (Ok r, mkNumberConverter [] [] [])
    /\ len r = len (lit "0111")
    /\ Forall is_bit r
    /\ bin_value r = (bin_value (lit "0111") + 1) mod 2 ^ len (lit "0111").
Proof.
  split; [discriminate |]. split; [now apply is_bit_dec |].
  apply (binary_add_one_modular (lit "0111"));
    [discriminate | now apply is_bit_dec].
Defined.

(** [__twos_complement] undoes itself: on a non-empty string of binary
    digits that is at least [bits] long, applying it twice gives the
    string back. *)
Theorem twos_complement_involutive
        (binary : str) (bits : Z) (self : NumberConverter) :
  binary <> [] -> Forall is_bit binary -> bits <= len binary ->
  exists r : str,
    twos_complement binary bits self = (Ok r, self)
    /\ twos_complement r bits self = (Ok binary, self).
Proof.
  intros Hne Hs Hbits.
  destruct (twos_complement_spec binary bits self Hne Hs Hbits)
    as (r & Hrun & Hr & Hlen & Hval).
  assert (Hne' : r <> []).
  { intros ->. destruct binary; [congruence |].
    rewrite len_cons in Hlen. change (len (@nil ascii)) with 0 in Hlen.
    pose proof (len_nonneg binary). lia. }
  destruct (twos_complement_spec r bits self Hne' Hr ltac:(lia))
    as (r' & Hrun' & Hr' & Hlen' & Hval').
  exists r. split; [assumption |]. rewrite Hrun'. f_equal. f_equal.
  apply bits_same_length_unique; auto.
  - unfold len in *. lia.
  - rewrite Hval', Hval, Hlen.
    pose proof (bin_value_bounds binary) as Hb.
    set (P := 2 ^ len binary) in *. set (v := bin_value binary) in *.
    destruct (Z.eq_dec v 0) as [Hz | Hnz].
    + rewrite Hz, Z.sub_0_r, Z.mod_same, Z.sub_0_r, Z.mod_same by lia.
      reflexivity.
    + rewrite (Z.mod_small (P - v)) by lia.
      replace (P - (P - v)) with v by lia. apply Z.mod_small. lia.
Qed.

Lemma twos_complement_involutive_witness :
  lit "0000000101" <> [] /\ Forall is_bit (lit "0000000101")
  /\ 10 <= len (lit "0000000101") /\
  exists r : str,
    twos_complement (lit "0000000101") 10 (mkNumberConverter [] [] [])
    = (Ok r, mkNumberConverter [] [] [])
    /\ twos_complement r 10 (mkNumberConverter [] [] [])
       = (Ok (lit "0000000101"), mkNumberConverter [] [] []).
Proof.
  split; [discriminate |]. split; [now apply is_bit_dec |].
  split; [vm_compute; discriminate |].
  apply (twos_complement_involutive (lit "0000000101") 10);
    [discriminate | now apply is_bit_dec | vm_compute; discriminate].
Defined.

(* ================================================================== *)
(** ** Further properties of [convert_to_hex]                           *)
(* ================================================================== *)

Lemma index_range (s : str) (c : ascii) (i : Z) :
  index s c = Ok i ->
  0 <= i < len s /\ nth_error s (Z.to_nat i) = Some c.
Proof.
  revert i. induction s as [| x s IH]; intros i; cbn [index]; [discriminate |].
  rewrite len_cons. pose proof (len_nonneg s) as Hs.
  destruct (Ascii.eqb x c) eqn:E.
  - apply Ascii.eqb_eq in E. intros [= <-]. subst. split; [lia | reflexivity].
  - destruct (index s c) as [j |] eqn:Ej; cbn [rbind]; [| discriminate].
    intros [= <-]. destruct (IH j eq_refl) as [Hj Hnth]. split; [lia |].
    replace (Z.to_nat (j + 1)) with (S (Z.to_nat j)) by lia. exact Hnth.
Qed.

Lemma index_getitem (s : str) (c : ascii) (i : Z) :
  index s c = Ok i -> getitem s i = Ok c.
Proof.
  intros H. destruct (index_range s c i H) as [Hi Hnth].
  unfold getitem. cbn zeta.
  assert (E : (i <? 0) = false) by (apply Z.ltb_ge; lia).
  assert (E2 : (len s <=? i) = false) by (apply Z.leb_gt; lia).
  rewrite !E, E2. cbn [orb]. now rewrite Hnth.
Qed.

Lemma index_not_In (s : str) (c : ascii) :
  ~ In c s -> index s c = Raise ValueError.
Proof.
  induction s as [| x s IH]; intros Hc; [reflexivity |].
  cbn [index]. destruct (Ascii.eqb x c) eqn:E.
  - apply Ascii.eqb_eq in E. exfalso. apply Hc. now left.
  - rewrite IH; [reflexivity |]. intros H. apply Hc. now right.
Qed.

Lemma hex_digit_value_inj (c d : ascii) :
  is_hex_digit c -> is_hex_digit d ->
  hex_digit_value c = hex_digit_value d -> c = d.
Proof.
  intros Hc Hd Heq.
  destruct (hex_index c Hc) as [Hic _]. destruct (hex_index d Hd) as [Hid _].
  apply index_getitem in Hic, Hid. rewrite Heq in Hic. congruence.
Qed.

Lemma is_hex_digitb_complete (c : ascii) :
  is_hex_digitb c = false -> ~ is_hex_digit c.
Proof.
  intros H Hc. destruct (hex_index c Hc) as [Hi _].
  unfold is_hex_digitb in H. now rewrite Hi in H.
Qed.

Lemma hex_same_length_unique (s t : str) :
  Forall is_hex_digit s -> Forall is_hex_digit t -> length s = length t ->
  hex_value s = hex_value t -> s = t.
Proof.
  unfold hex_value. revert t.
  induction s as [| b s IH] using rev_ind; intros t Hs Ht Hlen Hval.
  - destruct t; [reflexivity | discriminate].
  - destruct t as [| c t] using rev_ind.
    + rewrite length_app in Hlen. cbn in Hlen. lia.
    + clear IHt. apply Forall_app in Hs as [Hs Hb], Ht as [Ht Hc].
      inversion Hb as [| ? ? Hb' _]; inversion Hc as [| ? ? Hc' _]; subst.
      rewrite !length_app in Hlen. cbn in Hlen.
      rewrite !digits_value_snoc in Hval.
      destruct (hex_index b Hb') as [_ Hrb].
      destruct (hex_index c Hc') as [_ Hrc].
      rewrite (IH t) by (auto; lia).
      f_equal. f_equal. apply hex_digit_value_inj; auto. lia.
Qed.

Lemma pow16_pow2 (j : Z) : 0 <= j -> 16 ^ j = 2 ^ (4 * j).
Proof. intros Hj. now rewrite Z.pow_mul_r by lia. Qed.

(** The number of hexadecimal digits of a positive number. *)
Lemma hex_digits_count (k n : Z) :
  0 < n -> 0 < k -> 16 ^ (k - 1) <= n < 16 ^ k -> k = Z.log2 n / 4 + 1.
Proof.
  intros Hn Hk [Hlow Hup].
  rewrite pow16_pow2 in Hlow, Hup by lia.
  apply Z.log2_le_pow2 in Hlow; [| lia].
  apply Z.log2_lt_pow2 in Hup; [| lia].
  assert (Z.log2 n / 4 = k - 1); [| lia].
  symmetry. apply (Z.div_unique _ _ _ (Z.log2 n - 4 * (k - 1))); lia.
Qed.

Lemma hex_nonempty (ds : str) (n : Z) :
  0 < n -> n < 16 ^ len ds -> 0 < len ds.
Proof.
  intros Hn Hup. destruct ds; [cbn in Hup; lia |].
  rewrite len_cons. pose proof (len_nonneg ds). lia.
Qed.

(** The string [convert_to_hex] returns is never empty and holds the
    characters of ["0123456789ABCDEF"] only, whatever the number. *)
Theorem convert_to_hex_alphabet (number : Z) (self : NumberConverter) :
  exists r : str,
    convert_to_hex number self = (Ok r, self)
    /\ r <> [] /\ Forall is_hex_digit r.
Proof.
  destruct number as [| p | p].
  - exists (lit "0"). repeat split; [discriminate |].
    constructor; [cbn; tauto | constructor].
  - destruct (convert_to_hex_positive p self)
      as (ds & Hrun & Hds & Hval & Hlow & Hup).
    exists ds. repeat split; auto. intros ->. cbn in Hup. lia.
  - destruct (convert_to_hex_negative p self)
      as (ds & parts & r & _ & _ & _ & _ & Hrun & Hpad & Hr & Hlen & _).
    rewrite Hpad in Hrun. exists r. repeat split; auto. intros ->.
    change (len (@nil ascii)) with 0 in Hlen. lia.
Qed.

(** On a positive number the result is its hexadecimal numeral: digits of
    ["0123456789ABCDEF"], not starting with ['0'], denoting [n], with
    [log2 n / 4 + 1] characters; and it is the only such string. *)
Theorem convert_to_hex_positive_standard (n : Z) (self : NumberConverter) :
  0 < n ->
  exists r : str,
    convert_to_hex n self = (Ok r, self)
    /\ Forall is_hex_digit r
    /\ hex_value r = n
    /\ hd_error r <> Some "0"%char
    /\ len r = Z.log2 n / 4 + 1
    /\ (forall t : str,
          Forall is_hex_digit t -> hex_value t = n ->
          hd_error t <> Some "0"%char -> t = r).
Proof.
  intros Hn. destruct n as [| p | p]; try lia.
  destruct (convert_to_hex_positive p self)
    as (ds & Hrun & Hds & Hval & Hlow & Hup).
  pose proof (hex_nonempty ds _ Hn Hup) as Hpos.
  assert (Hcount : len ds = Z.log2 (Z.pos p) / 4 + 1)
    by (apply hex_digits_count; auto).
  assert (Hhead : forall t : str,
             Forall is_hex_digit t -> hd_error t <> Some "0"%char ->
             0 < hex_value t -> 16 ^ (len t - 1) <= hex_value t).
  { intros t Ht Hhd Hv. destruct t as [| c t]; [cbn in Hv; lia |].
    inversion Ht as [| ? ? Hc Ht']; subst.
    destruct (hex_index c Hc) as [_ Hrc].
    assert (hex_digit_value c <> 0).
    { intros Hz. apply Hhd. cbn. f_equal.
      apply hex_digit_value_inj; auto. cbn; tauto. }
    unfold hex_value in *. rewrite digits_value_cons, len_cons by lia.
    replace (len t + 1 - 1) with (len t) by lia.
    pose proof (hex_value_bounds t Ht') as Hb. unfold hex_value in Hb.
    nia. }
  exists ds. repeat split; auto.
  - intros Hhd. destruct ds as [| c ds]; [discriminate |].
    injection Hhd as ->. inversion Hds as [| ? ? _ Hds']; subst.
    unfold hex_value in Hval. rewrite digits_value_cons in Hval by lia.
    change (hex_digit_value "0") with 0 in Hval.
    pose proof (hex_value_bounds ds Hds') as Hb. unfold hex_value in Hb.
    rewrite len_cons in Hlow. replace (len ds + 1 - 1) with (len ds) in Hlow by lia.
    lia.
  - intros t Ht Hvt Hhd. apply hex_same_length_unique; auto; [| lia].
    pose proof (hex_value_bounds t Ht) as Hbt.
    specialize (Hhead t Ht Hhd ltac:(lia)). rewrite Hvt in *.
    assert (Hpt : 0 < len t) by (apply (hex_nonempty t (Z.pos p)); lia).
    assert (len t = Z.log2 (Z.pos p) / 4 + 1)
      by (apply hex_digits_count; auto; lia).
    unfold len in *. lia.
Qed.

Lemma convert_to_hex_positive_standard_witness :
  0 < 48879 /\
  exists r : str,
    convert_to_hex 48879 (mkNumberConverter [] [] [])
    = (Ok r, mkNumberConverter [] [] [])
    /\ Forall is_hex_digit r
    /\ hex_value r = 48879
    /\ hd_error r <> Some "0"%char
    /\ len r = Z.log2 48879 / 4 + 1
    /\ (forall t : str,
          Forall is_hex_digit t -> hex_value t = 48879 ->
          hd_error t <> Some "0"%char -> t = r).
Proof.
  split; [lia |]. apply (convert_to_hex_positive_standard 48879). lia.
Defined.

(** On a negative number the result has at least 10 characters, namely as
    many as the wider of 10 and the hexadecimal numeral of [|n|], and as
    an unsigned hexadecimal number it is [n] modulo [16 ^ length]. *)
Theorem convert_to_hex_negative_modular (n : Z) (self : NumberConverter) :
  n < 0 ->
  exists r : str,
    convert_to_hex n self = (Ok r, self)
    /\ len r = Z.max 10 (Z.log2 (- n) / 4 + 1)
    /\ hex_value r = n mod 16 ^ len r.
Proof.
  intros Hn. destruct n as [| p | p]; try lia.
  destruct (convert_to_hex_negative p self)
    as (ds & parts & r & _ & _ & _ & _ & Hrun & Hpad & Hr & Hlen & [Hlow Hup] & Hval).
  rewrite Hpad in Hrun. exists r. split; [assumption |]. cbn [Z.opp].
  pose proof (hex_nonempty ds (Z.pos p) ltac:(lia) Hup) as Hpos.
  rewrite <- (hex_digits_count (len ds) (Z.pos p)) by (auto; lia).
  split; [assumption |].
  assert (16 ^ len ds <= 16 ^ len r) by (apply Z.pow_le_mono_r; lia).
  rewrite Hval. apply (Z.mod_unique _ _ (-1)); lia.
Qed.

Lemma convert_to_hex_negative_modular_witness :
  - 2 ^ 44 < 0 /\
  exists r : str,
    convert_to_hex (- 2 ^ 44) (mkNumberConverter [] [] [])
    = (Ok r, mkNumberConverter [] [] [])
    /\ len r = Z.max 10 (Z.log2 (- - 2 ^ 44) / 4 + 1)
    /\ hex_value r = (- 2 ^ 44) mod 16 ^ len r.
Proof.
  split; [reflexivity |].
  apply (convert_to_hex_negative_modular (- 2 ^ 44)). reflexivity.
Defined.

(** The sign is not kept: a negative number down to [- 15 * 16^9] is
    encoded exactly as the positive number [16^10 + n] is. *)
Theorem convert_to_hex_sign_collision (n : Z) (self : NumberConverter) :
  n < 0 -> - n <= 15 * 16 ^ 9 ->
  convert_to_hex n self = convert_to_hex (16 ^ 10 + n) self.
Proof.
  intros Hn Hsmall. destruct n as [| p | p]; try lia.
  cbn [Z.opp] in Hsmall.
  destruct (convert_to_hex_negative p self)
    as (ds & parts & r & _ & _ & _ & _ & Hrun & Hpad & Hr & Hlen & [Hlow Hup] & Hval).
  rewrite Hpad in Hrun.
  pose proof (len_nonneg ds) as Hk.
  assert (Hp16 : 16 ^ 10 = 16 * 16 ^ 9) by reflexivity.
  assert (Hfit : len ds <= 10).
  { apply (pow16_len_le _ (Z.pos p)); auto. change (2 ^ 40) with (16 ^ 10). lia. }
  assert (Hlenr : len r = 10) by lia.
  rewrite Hlenr in Hval.
  remember (16 ^ 10 + Z.neg p) as m eqn:Hm.
  destruct m as [| q | q]; try lia.
  destruct (convert_to_hex_positive q self)
    as (qs & Hrunq & Hqs & Hvalq & Hlowq & Hupq).
  rewrite Hrun, Hrunq. f_equal. f_equal.
  pose proof (len_nonneg qs) as Hkq.
  assert (len qs = 10).
  { destruct (Z.lt_trichotomy (len qs) 10) as [H1 | [H1 | H1]];
      [exfalso | assumption | exfalso].
    - assert (16 ^ len qs <= 16 ^ 9) by (apply Z.pow_le_mono_r; lia). lia.
    - assert (16 ^ 10 <= 16 ^ (len qs - 1)) by (apply Z.pow_le_mono_r; lia).
      lia. }
  apply hex_same_length_unique; auto.
  - unfold len in *. lia.
  - rewrite Hvalq, Hval. lia.
Qed.

Lemma convert_to_hex_sign_collision_witness :
  -255 < 0 /\ - (-255) <= 15 * 16 ^ 9 /\
  convert_to_hex (-255) (mkNumberConverter [] [] [])
  = convert_to_hex (16 ^ 10 + -255) (mkNumberConverter [] [] []).
Proof.
  split; [lia | split; [vm_compute; discriminate |]].
  apply (convert_to_hex_sign_collision (-255)); [lia |].
  vm_compute; discriminate.
Defined.

(** At the width of 40 bits the two conversions agree: for
    [|n| < 2^40] the binary string and the hexadecimal string denote the
    same unsigned number. *)
Theorem binary_and_hex_agree_at_40_bits (n : Z) (self : NumberConverter) :
  Z.abs n < 2 ^ 40 ->
  exists b h : str,
    convert_to_binary n 40 self = (Ok b, self)
    /\ convert_to_hex n self = (Ok h, self)
    /\ bin_value b = hex_value h
    /\ bin_value b = n mod 2 ^ 40.
Proof.
  intros Hn. destruct n as [| p | p].
  - exists (lit "0"), (lit "0"). repeat split.
  - destruct (convert_to_hex_positive p self)
      as (ds & Hrun & Hds & Hval & _).
    exists (standard_binary p), ds.
    rewrite convert_to_binary_positive, standard_binary_value, Hval.
    repeat split; auto. cbn [Z.abs] in Hn. symmetry. apply Z.mod_small. lia.
  - cbn [Z.abs] in Hn.
    destruct (convert_to_binary_negative p 40 self)
      as (b & Hrunb & Hb & Hlenb & Hvalb).
    destruct (convert_to_hex_negative p self)
      as (ds & parts & r & _ & _ & _ & _ & Hrun & Hpad & Hr & Hlen & [Hlow Hup] & Hval).
    rewrite Hpad in Hrun.
    pose proof (standard_binary_len p) as [Hlow2 Hup2].
    pose proof (len_nonneg (standard_binary p)) as Hk2.
    pose proof (len_nonneg ds) as Hk.
    assert (len (standard_binary p) <= 40)
      by (apply (pow2_len_le _ 40 (Z.pos p)); lia).
    assert (len ds <= 10) by (apply (pow16_len_le _ (Z.pos p)); auto).
    assert (Hlb : len b = 40) by lia. assert (Hlr : len r = 10) by lia.
    exists b, r. rewrite Hvalb, Hval, Hlb, Hlr.
    change (16 ^ 10) with (2 ^ 40).
    repeat split; auto. apply (Z.mod_unique _ _ (-1)); lia.
Qed.

Lemma binary_and_hex_agree_at_40_bits_witness :
  Z.abs (-255) < 2 ^ 40 /\
  exists b h : str,
    convert_to_binary (-255) 40 (mkNumberConverter [] [] [])
    = (Ok b, mkNumberConverter [] [] [])
    /\ convert_to_hex (-255) (mkNumberConverter [] [] [])
       = (Ok h, mkNumberConverter [] [] [])
    /\ bin_value b = hex_value h
    /\ bin_value b = (-255) mod 2 ^ 40.
Proof.
  split; [reflexivity |].
  apply (binary_and_hex_agree_at_40_bits (-255)). reflexivity.
Defined.

(* ------------------------------------------------------------------ *)
(** *** [__add_one_to_hex]                                              *)

Lemma repeat_shift {A} (x : A) (k : nat) (l : list A) :
  repeat x k ++ x :: l = x :: repeat x k ++ l.
Proof.
  change (x :: l) with ([x] ++ l). rewrite app_assoc, <- repeat_cons.
  reflexivity.
Qed.

(** With a carry, every ['F'] read becomes a ['0'] and the carry goes
    on. *)
Lemma add_one_to_hex_loop_Fs (k : nat) :
  forall digits result : str,
    add_one_to_hex_loop (repeat "F"%char k ++ digits) result 1
    = add_one_to_hex_loop digits (repeat "0"%char k ++ result) 1.
Proof.
  induction k as [| k IH]; intros digits result; [reflexivity |].
  cbn [repeat app add_one_to_hex_loop Z.eqb].
  change (index hex_digits "F") with (@Ok Z 15). cbn [rbind].
  change (15 + 1 >=? 16) with true. cbv iota.
  rewrite IH. now rewrite repeat_shift.
Qed.

(** Without a carry the digits left are copied, whatever they are. *)
Lemma add_one_to_hex_loop_copy (digits : str) :
  forall result : str,
    add_one_to_hex_loop digits result 0 = Ok (rev digits ++ result).
Proof.
  induction digits as [| d digits IH]; intros result; [reflexivity |].
  cbn [add_one_to_hex_loop Z.eqb rev]. rewrite IH, <- app_assoc.
  reflexivity.
Qed.

Lemma rev_cascade (pre : str) (d : ascii) (k : nat) :
  rev (pre ++ d :: repeat "F"%char k) = repeat "F"%char k ++ d :: rev pre.
Proof.
  rewrite rev_app_distr. cbn [rev]. rewrite rev_repeat, <- app_assoc.
  reflexivity.
Qed.

Lemma hex_digit_below_F (d : ascii) :
  is_hex_digit d -> d <> "F"%char -> hex_digit_value d < 15.
Proof.
  intros Hd HF. destruct (hex_index d Hd) as [_ Hr].
  destruct (Z.eq_dec (hex_digit_value d) 15) as [E | E]; [| lia].
  exfalso. apply HF. apply hex_digit_value_inj; auto. cbn; tauto.
Qed.

(** Carry cascade of [__add_one_to_hex]: the last digit that is not ['F']
    goes up by one, the ['F']s after it become ['0'], and what is before
    it is returned as it is, hexadecimal or not. *)
Theorem add_one_to_hex_absorbs
        (pre : str) (d : ascii) (k : nat) (self : NumberConverter) :
  is_hex_digitb d = true -> d <> "F"%char ->
  exists c : ascii,
    getitem hex_digits (hex_digit_value d + 1) = Ok c
    /\ hex_digit_value c = hex_digit_value d + 1
    /\ add_one_to_hex (pre ++ d :: repeat "F"%char k) self
       = (Ok (pre ++ c :: repeat "0"%char k), self).
Proof.
  intros Hd HF.
  assert (Hd' : is_hex_digit d).
  { pose proof (is_hex_digitb_sound [d]) as H. cbn [forallb] in H.
    rewrite Hd in H. specialize (H eq_refl). now inversion H. }
  destruct (hex_index d Hd') as [Hidx Hr].
  pose proof (hex_digit_below_F d Hd' HF) as Hlt.
  destruct (hex_getitem (hex_digit_value d + 1) ltac:(lia))
    as (c & Hget & _ & Hcv).
  exists c. repeat split; auto.
  unfold add_one_to_hex, lift. f_equal.
  rewrite rev_cascade, add_one_to_hex_loop_Fs, app_nil_r.
  cbn [add_one_to_hex_loop Z.eqb]. rewrite Hidx. cbn [rbind].
  destruct (hex_digit_value d + 1 >=? 16) eqn:E;
    [apply Z.geb_le in E; lia |].
  rewrite Hget. cbn [rbind].
  rewrite add_one_to_hex_loop_copy, rev_involutive. reflexivity.
Qed.

Lemma add_one_to_hex_absorbs_witness :
  is_hex_digitb "9" = true /\ "9"%char <> "F"%char /\
  exists c : ascii,
    getitem hex_digits (hex_digit_value "9" + 1) = Ok c
    /\ hex_digit_value c = hex_digit_value "9" + 1
    /\ add_one_to_hex (lit "xy" ++ "9"%char :: repeat "F"%char 3)
                      (mkNumberConverter [] [] [])
       = (Ok (lit "xy" ++ c :: repeat "0"%char 3),
          mkNumberConverter [] [] []).
Proof.
  split; [reflexivity | split; [discriminate |]].
  apply (add_one_to_hex_absorbs (lit "xy") "9" 3);
    [reflexivity | discriminate].
Defined.

(** [__add_one_to_hex] on ['F']s only wraps around to as many ['0']s (the
    empty string stays empty): the last carry is lost. *)
Theorem add_one_to_hex_overflow (k : nat) (self : NumberConverter) :
  add_one_to_hex (repeat "F"%char k) self
  = (Ok (repeat "0"%char k), self).
Proof.
  unfold add_one_to_hex, lift. f_equal.
  rewrite rev_repeat, <- (app_nil_r (repeat "F"%char k)).
  rewrite add_one_to_hex_loop_Fs, app_nil_r. reflexivity.
Qed.

(** [__add_one_to_hex] raises [ValueError] when the last character that
    is not ['F'] is not an upper-case hexadecimal digit either. *)
Theorem add_one_to_hex_raises
        (pre : str) (c : ascii) (k : nat) (self : NumberConverter) :
  is_hex_digitb c = false ->
  add_one_to_hex (pre ++ c :: repeat "F"%char k) self
  = (Raise ValueError, self).
Proof.
  intros Hc. apply is_hex_digitb_complete in Hc.
  unfold add_one_to_hex, lift. f_equal.
  rewrite rev_cascade, add_one_to_hex_loop_Fs.
  cbn [add_one_to_hex_loop Z.eqb].
  now rewrite (index_not_In hex_digits c Hc).
Qed.

Lemma add_one_to_hex_raises_witness :
  is_hex_digitb "f" = false /\
  add_one_to_hex (lit "12" ++ "f"%char :: repeat "F"%char 2)
                 (mkNumberConverter [] [] [])
  = (Raise ValueError, mkNumberConverter [] [] []).
Proof.
  split; [reflexivity |].
  apply (add_one_to_hex_raises (lit "12") "f" 2). reflexivity.
Defined.

(** On a string of hexadecimal digits [__add_one_to_hex] adds one modulo
    [16 ^ length]. *)
Theorem add_one_to_hex_modular (hex_string : str) (self : NumberConverter) :
  forallb is_hex_digitb hex_string = true ->
  exists r : str,
    add_one_to_hex hex_string self = (Ok r, self)
    /\ Forall is_hex_digit r
    /\ hex_value r = (hex_value hex_string + 1) mod 16 ^ len hex_string.
Proof.
  intros Hs.
  destruct (add_one_to_hex_spec hex_string self (is_hex_digitb_sound _ Hs))
    as (r & Hrun & _ & Hr & Hval).
  now exists r.
Qed.

Lemma add_one_to_hex_modular_witness :
  forallb is_hex_digitb (lit "A0FF") = true /\
  exists r : str,
    add_one_to_hex (lit "A0FF") (mkNumberConverter [] [] [])
    = (Ok r, mkNumberConverter [] [] [])
    /\ Forall is_hex_digit r
    /\ hex_value r = (hex_value (lit "A0FF") + 1) mod 16 ^ len (lit "A0FF").
Proof.
  split; [reflexivity |]. apply (add_one_to_hex_modular (lit "A0FF")).
  reflexivity.
Defined.

(* ================================================================== *)
(** ** [transform_data] and the loader                                  *)
(* ================================================================== *)

Lemma transform_loop_spec (numbers : list Z) (self : NumberConverter) :
  exists rows : list (Z * str * str),
    transform_loop numbers self = (Ok rows, self)
    /\ Forall2 (fun d row =>
                  exists b h : str,
                    row = (d, b, h)
                    /\ b <> [] /\ Forall is_bit b
                    /\ convert_to_binary d default_bits self = (Ok b, self)
                    /\ convert_to_hex d self = (Ok h, self))
               numbers rows.
Proof.
  induction numbers as [| d rest IH].
  - exists []. split; [reflexivity | constructor].
  - destruct IH as (rows & Hrun & Hrows).
    destruct (stateless_convert_to_binary d default_bits) as [rb Hb].
    destruct (stateless_convert_to_hex d) as [rh Hh].
    assert (Hbin : exists b, rb = Ok b /\ b <> [] /\ Forall is_bit b).
    { destruct d as [| p | p].
      - specialize (Hb self). cbn in Hb. injection Hb as <-.
        exists (lit "0"). repeat split; [discriminate |].
        constructor; [now left | constructor].
      - specialize (Hb self). rewrite convert_to_binary_positive in Hb.
        injection Hb as <-. exists (standard_binary p).
        split; [reflexivity |]. split; [| apply standard_binary_bits].
        destruct (standard_binary_head p) as [t ->]. discriminate.
      - destruct (convert_to_binary_negative p default_bits self)
          as (r & Hr & Hbits & Hlen & _).
        rewrite Hb in Hr. injection Hr as ->. exists r.
        repeat split; auto. intros ->.
        change (len (@nil ascii)) with 0 in Hlen. unfold default_bits in Hlen.
        lia. }
    assert (Hhex : exists h, rh = Ok h).
    { destruct d as [| p | p].
      - specialize (Hh self). cbn in Hh. injection Hh as <-. eauto.
      - destruct (convert_to_hex_positive p self) as (r & Hr & _).
        rewrite Hh in Hr. injection Hr as ->. eauto.
      - destruct (convert_to_hex_negative p self)
          as (ds & parts & r & _ & _ & _ & _ & Hr & Hpad & _).
        rewrite Hh in Hr. injection Hr as ->. eauto. }
    destruct Hbin as (b & -> & Hne & Hbits). destruct Hhex as (h & ->).
    exists ((d, b, h) :: rows). split.
    + cbn [transform_loop]. unfold bind. rewrite Hb, Hh, Hrun. reflexivity.
    + constructor; [| assumption]. exists b, h. repeat split; auto.
Qed.

(** [transform_data] never raises and writes no field; it returns one
    triple for each loaded number, in the order of [data]: the number,
    its binary string at the default width of 10 and its hexadecimal
    string. *)
Theorem transform_data_rows (self : NumberConverter) :
  exists rows : list (Z * str * str),
    transform_data self = (Ok rows, self)
    /\ length rows = length (data self)
    /\ Forall2 (fun d row =>
                  exists b h : str,
                    row = (d, b, h)
                    /\ convert_to_binary d default_bits self = (Ok b, self)
                    /\ convert_to_hex d self = (Ok h, self))
               (data self) rows.
Proof.
  destruct (transform_loop_spec (data self) self) as (rows & Hrun & Hrows).
  exists rows. split; [exact Hrun |]. split.
  - symmetry. eapply Forall2_length. exact Hrows.
  - eapply Forall2_impl; [| exact Hrows].
    intros d row (b & h & -> & _ & _ & Hb & Hh). eauto.
Qed.

Lemma rejected_sorted (f : str -> option Z) (file : list str) :
  forall i : Z,
    Sorted.StronglySorted Z.lt (map fst (rejected f i file))
    /\ Forall (fun e => i <= fst e < i + len file) (rejected f i file).
Proof.
  induction file as [| line rest IH]; intros i.
  - split; constructor.
  - destruct (IH (i + 1)) as [Hs Hr]. cbn [rejected]. rewrite len_cons.
    pose proof (len_nonneg rest) as Hlen.
    assert (Hr' : Forall (fun e => i <= fst e < i + (len rest + 1))
                         (rejected f (i + 1) rest)).
    { eapply Forall_impl; [| exact Hr]. cbn. intros e He. lia. }
    destruct (f line); [now split |]. split.
    + cbn [map fst]. constructor; [assumption |].
      apply Forall_map. eapply Forall_impl; [| exact Hr].
      cbn. intros e He. lia.
    + constructor; [cbn; lia | assumption].
Qed.

(** After a successful construction the records of [line_errors] carry
    the 0-based positions of the rejected lines, strictly increasing and
    all within the file. *)
Theorem loader_error_indices
        (fs : str -> option (list str)) (strip : str -> str)
        (int_of_str : str -> option Z) (path : str) (file : list str) :
  fs path = Some file ->
  exists obj : NumberConverter,
    new_NumberConverter fs strip int_of_str path = Ok obj
    /\ file_path obj = path
    /\ Sorted.StronglySorted Z.lt (map fst (line_errors obj))
    /\ Forall (fun e => 0 <= fst e < len file) (line_errors obj).
Proof.
  intros Hfile. unfold new_NumberConverter. rewrite init_spec, Hfile.
  eexists. split; [reflexivity |]. cbn [file_path line_errors].
  split; [reflexivity |]. apply rejected_sorted.
Qed.

Lemma loader_error_indices_witness :
  sample_fs (lit "data.txt")
  = Some [lit "12" ++ [newline]; lit "abc" ++ [newline];
          lit " -3 " ++ [newline]; lit "4.5"] /\
  exists obj : NumberConverter,
    new_NumberConverter sample_fs ascii_strip decimal_int (lit "data.txt")
    = Ok obj
    /\ file_path obj = lit "data.txt"
    /\ Sorted.StronglySorted Z.lt (map fst (line_errors obj))
    /\ Forall (fun e => 0 <= fst e < len [lit "12" ++ [newline];
                                           lit "abc" ++ [newline];
                                           lit " -3 " ++ [newline];
                                           lit "4.5"])
              (line_errors obj).
Proof.
  split; [reflexivity |].
  apply (loader_error_indices sample_fs ascii_strip decimal_int
           (lit "data.txt")).
  reflexivity.
Defined.

Lemma accepted_all (f : str -> option Z) (file : list str) :
  (forall line, In line file -> f line <> None) ->
  forall i, rejected f i file = []
            /\ map Some (accepted f file) = map f file.
Proof.
  induction file as [| line rest IH]; intros Hall i; [split; reflexivity |].
  cbn [accepted rejected map].
  destruct (f line) as [n |] eqn:E.
  - destruct (IH (fun l Hl => Hall l (or_intror Hl)) (i + 1)) as [Hr Ha].
    split; [assumption |]. cbn [map]. now rewrite Ha.
  - exfalso. apply (Hall line); [now left | assumption].
Qed.

(** When every line of the file parses, [line_errors] stays empty and
    [data] holds the number of every line, in the order of the file. *)
Theorem loader_all_lines_valid
        (fs : str -> option (list str)) (strip : str -> str)
        (int_of_str : str -> option Z) (path : str) (file : list str) :
  fs path = Some file ->
  (forall line, In line file -> int_of_str (strip line) <> None) ->
  exists obj : NumberConverter,
    new_NumberConverter fs strip int_of_str path = Ok obj
    /\ line_errors obj = []
    /\ map Some (data obj) = map (fun line => int_of_str (strip line)) file.
Proof.
  intros Hfile Hall. unfold new_NumberConverter. rewrite init_spec, Hfile.
  eexists. split; [reflexivity |]. cbn [data line_errors].
  apply (accepted_all (fun line => int_of_str (strip line)) file Hall 0).
Qed.

Lemma loader_all_lines_valid_witness :
  (fun p : str => if list_eq_dec ascii_dec p (lit "n.txt")
                  then Some [lit "7"; lit "-40"] else None) (lit "n.txt")
  = Some [lit "7"; lit "-40"] /\
  exists obj : NumberConverter,
    new_NumberConverter
      (fun p : str => if list_eq_dec ascii_dec p (lit "n.txt")
                      then Some [lit "7"; lit "-40"] else None)
      ascii_strip decimal_int (lit "n.txt") = Ok obj
    /\ line_errors obj = []
    /\ map Some (data obj)
       = map (fun line => decimal_int (ascii_strip line))
             [lit "7"; lit "-40"].
Proof.
  split; [reflexivity |].
  apply (loader_all_lines_valid _ ascii_strip decimal_int (lit "n.txt"));
    [reflexivity |].
  intros line [<- | [<- | []]]; discriminate.
Defined.

(* ================================================================== *)
(** ** The report                                                       *)
(* ================================================================== *)

Section FormatterProperties.

Variable basename : str -> str.
Variable splitext : str -> str * str.
Variable str_of_int : Z -> str.
Variable int_of_str : str -> option Z.

Lemma format_rows_spec (self : NumberConverter) (numbers : list Z)
      (conversions : list (Z * str * str)) :
  (forall s : str, s <> [] -> Forall is_bit s -> int_of_str s <> None) ->
  Forall2 (fun d row =>
             exists b h : str,
               row = (d, b, h)
               /\ b <> [] /\ Forall is_bit b
               /\ convert_to_binary d default_bits self = (Ok b, self)
               /\ convert_to_hex d self = (Ok h, self))
          numbers conversions ->
  forall i : Z,
  exists rows : list str,
    format_rows str_of_int int_of_str i conversions = Ok rows
    /\ length rows = length numbers
    /\ forall (k : nat) (d : Z),
         nth_error numbers k = Some d ->
         exists (b h : str) (z : Z),
           convert_to_binary d default_bits self = (Ok b, self)
           /\ convert_to_hex d self = (Ok h, self)
           /\ int_of_str b = Some z
           /\ nth_error rows k
              = Some (join [str_of_int (i + Z.of_nat k + 1); [tab];
                            str_of_int d; [tab]; str_of_int z; [tab]; h]).
Proof.
  intros Hparse Hall. induction Hall as [| d row numbers conversions Hrow _ IH];
    intros i.
  - exists []. repeat split. intros [| k] d H; discriminate.
  - destruct Hrow as (b & h & -> & Hne & Hbits & Hb & Hh).
    destruct (int_of_str b) as [z |] eqn:Ez;
      [| exfalso; exact (Hparse b Hne Hbits Ez)].
    destruct (IH (i + 1)) as (rows & Hrun & Hlen & Hnth).
    eexists. cbn [format_rows]. rewrite Ez. cbn [rbind]. rewrite Hrun.
    cbn [rbind]. split; [reflexivity |]. split; [cbn; lia |].
    intros [| k] d' Hd; cbn [nth_error] in *.
    + injection Hd as <-. exists b, h, z. rewrite Z.add_0_r. auto.
    + destruct (Hnth k d' Hd) as (b' & h' & z' & Hb' & Hh' & Hz' & Hk).
      exists b', h', z'. repeat split; auto. rewrite Hk.
      replace (i + 1 + Z.of_nat k + 1) with (i + Z.of_nat (S k) + 1) by lia.
      reflexivity.
Qed.

Lemma format_conversion_spec (self : NumberConverter) :
  (forall s : str, s <> [] -> Forall is_bit s -> int_of_str s <> None) ->
  exists rows : list str,
    format_conversion_for_display basename splitext str_of_int int_of_str self
    = (Ok (join [lit "NUMBER"; [tab];
                 fst (splitext (basename (file_path self))); [tab];
                 lit "BIN"; [tab]; lit "HEX"] :: rows), self)
    /\ length rows = length (data self)
    /\ forall (k : nat) (d : Z),
         nth_error (data self) k = Some d ->
         exists (b h : str) (z : Z),
           convert_to_binary d default_bits self = (Ok b, self)
           /\ convert_to_hex d self = (Ok h, self)
           /\ int_of_str b = Some z
           /\ nth_error rows k
              = Some (join [str_of_int (Z.of_nat k + 1); [tab];
                            str_of_int d; [tab]; str_of_int z; [tab]; h]).
Proof.
  intros Hparse.
  destruct (transform_loop_spec (data self) self) as (conv & Hrun & Hconv).
  destruct (format_rows_spec self _ _ Hparse Hconv 0) as (rows & Hrows & Hlen & Hnth).
  exists rows. split; [| split; [assumption |]].
  - unfold format_conversion_for_display, transform_data, bind, get_self,
      lift, ret.
    rewrite Hrun, Hrows. reflexivity.
  - intros k d Hd. destruct (Hnth k d Hd) as (b & h & z & Hb & Hh & Hz & Hk).
    exists b, h, z. repeat split; auto.
Qed.

(** When [int] accepts every non-empty string of binary digits, the
    report is built without an exception and without a write to the
    object: the header line with the name that [splitext] and [basename]
    make of [file_path], then one line for each loaded number, numbered
    from 1 and holding the number, [int] of its binary string and its
    hexadecimal string, separated by tabs. *)
Theorem format_conversion_rows (self : NumberConverter) :
  (forall s : str, s <> [] -> Forall is_bit s -> int_of_str s <> None) ->
  exists rows : list str,
    format_conversion_for_display basename splitext str_of_int int_of_str self
    = (Ok (join [lit "NUMBER"; [tab];
                 fst (splitext (basename (file_path self))); [tab];
                 lit "BIN"; [tab]; lit "HEX"] :: rows), self)
    /\ length rows = length (data self)
    /\ forall (k : nat) (d : Z),
         nth_error (data self) k = Some d ->
         exists (b h : str) (z : Z),
           convert_to_binary d default_bits self = (Ok b, self)
           /\ convert_to_hex d self = (Ok h, self)
           /\ int_of_str b = Some z
           /\ nth_error rows k
              = Some (join [str_of_int (Z.of_nat k + 1); [tab];
                            str_of_int d; [tab]; str_of_int z; [tab]; h]).
Proof. exact (format_conversion_spec self). Qed.

End FormatterProperties.

(* ------------------------------------------------------------------ *)
(** *** Decimal numerals                                                *)

Lemma decimal_digit_spec (d : Z) :
  0 <= d < 10 ->
  is_decimal_digit (decimal_digit d)
  /\ decimal_digit_value (decimal_digit d) = d.
Proof.
  intros Hd.
  assert (Hcases : d = 0 \/ d = 1 \/ d = 2 \/ d = 3 \/ d = 4 \/ d = 5
                   \/ d = 6 \/ d = 7 \/ d = 8 \/ d = 9) by lia.
  unfold is_decimal_digit.
  repeat (destruct Hcases as [-> | Hcases]); [.. | subst d];
    (split; [cbn; tauto | reflexivity]).
Qed.

Lemma decimal_digit_value_range (c : ascii) :
  is_decimal_digit c -> 0 <= decimal_digit_value c < 10.
Proof.
  unfold is_decimal_digit. cbn [lit list_ascii_of_string In]. intros Hc.
  repeat (destruct Hc as [<- | Hc]); [.. | contradiction];
    cbv; split; congruence.
Qed.

Lemma decimal_digit_value_inj (c d : ascii) :
  decimal_digit_value c = decimal_digit_value d -> c = d.
Proof.
  unfold decimal_digit_value. intros H.
  assert (Hn : nat_of_ascii c = nat_of_ascii d) by lia.
  rewrite <- (ascii_nat_embedding c), <- (ascii_nat_embedding d).
  now rewrite Hn.
Qed.

Lemma decimal_value_bounds (s : str) :
  Forall is_decimal_digit s -> 0 <= decimal_value s < 10 ^ len s.
Proof.
  intros H. apply digits_value_bounds; [lia |].
  eapply Forall_impl; [| exact H]. apply decimal_digit_value_range.
Qed.

Lemma decimal_loop_eq (n : Z) (acc : str) :
  decimal_loop n acc
  = if n >? 0 then decimal_loop (n / 10) (decimal_digit (n mod 10) :: acc)
    else acc.
Proof.
  rewrite (decimal_loop_equation_1 n acc).
  destruct (Z_gt_dec n 0) as [H | H]; simpl.
  - assert (E : (n >? 0) = true) by (apply Z.gtb_lt; lia). now rewrite E.
  - destruct (n >? 0) eqn:E; [apply Z.gtb_lt in E; lia | reflexivity].
Qed.

Lemma decimal_loop_spec (n : Z) :
  0 <= n ->
  forall acc : str, exists ds : str,
    decimal_loop n acc = ds ++ acc
    /\ Forall is_decimal_digit ds
    /\ decimal_value ds = n
    /\ (n = 0 -> ds = [])
    /\ (0 < n -> 10 ^ (len ds - 1) <= n).
Proof.
  pattern n. apply (well_founded_induction (Z.lt_wf 0)). clear n.
  intros n IH Hn acc. rewrite decimal_loop_eq.
  destruct (n >? 0) eqn:E.
  - apply Z.gtb_lt in E.
    assert (Hmod : 0 <= n mod 10 < 10) by (apply Z.mod_pos_bound; lia).
    destruct (decimal_digit_spec _ Hmod) as [Hc Hcv].
    assert (Hq : 0 <= n / 10 < n)
      by (split; [apply Z.div_pos | apply Z.div_lt]; lia).
    destruct (IH (n / 10) Hq ltac:(lia) (decimal_digit (n mod 10) :: acc))
      as (ds & Hrun & Hds & Hval & Hzero & Hlow).
    exists (ds ++ [decimal_digit (n mod 10)]). rewrite Hrun, <- app_assoc.
    pose proof (Z.div_mod n 10 ltac:(lia)) as Hdm.
    repeat split; auto.
    + apply Forall_app. split; [assumption | now constructor].
    + unfold decimal_value in *. rewrite digits_value_snoc, Hval, Hcv. lia.
    + lia.
    + intros _. rewrite len_app.
      change (len [decimal_digit (n mod 10)]) with 1.
      replace (len ds + 1 - 1) with (len ds) by lia.
      destruct (Z.eq_dec (n / 10) 0) as [Hz | Hnz].
      * rewrite (Hzero Hz). cbn. lia.
      * specialize (Hlow ltac:(lia)).
        assert (0 < len ds).
        { destruct ds; [cbn in Hval; lia |].
          rewrite len_cons. pose proof (len_nonneg ds). lia. }
        replace (len ds) with (len ds - 1 + 1) by lia.
        rewrite Z.pow_add_r, Z.pow_1_r by lia. lia.
  - rewrite Z.gtb_ltb in E. apply Z.ltb_ge in E. exists []. cbn [app].
    repeat split; auto; try lia.
    unfold decimal_value. rewrite digits_value_nil. lia.
Qed.

Lemma decimal_same_length_unique (s t : str) :
  Forall is_decimal_digit s -> Forall is_decimal_digit t ->
  length s = length t -> decimal_value s = decimal_value t -> s = t.
Proof.
  unfold decimal_value. revert t.
  induction s as [| b s IH] using rev_ind; intros t Hs Ht Hlen Hval.
  - destruct t; [reflexivity | discriminate].
  - destruct t as [| c t] using rev_ind.
    + rewrite length_app in Hlen. cbn in Hlen. lia.
    + clear IHt. apply Forall_app in Hs as [Hs Hb], Ht as [Ht Hc].
      inversion Hb as [| ? ? Hb' _]; inversion Hc as [| ? ? Hc' _]; subst.
      rewrite !length_app in Hlen. cbn in Hlen.
      rewrite !digits_value_snoc in Hval.
      pose proof (decimal_digit_value_range b Hb').
      pose proof (decimal_digit_value_range c Hc').
      rewrite (IH t) by (auto; lia).
      f_equal. f_equal. apply decimal_digit_value_inj. lia.
Qed.

(** A positive number has one decimal numeral without leading zero. *)
Lemma decimal_numeral_unique (s t : str) (v : Z) :
  Forall is_decimal_digit s -> Forall is_decimal_digit t ->
  decimal_value s = v -> decimal_value t = v ->
  10 ^ (len s - 1) <= v -> 10 ^ (len t - 1) <= v -> 0 < v ->
  s = t.
Proof.
  intros Hs Ht Hvs Hvt Hls Hlt Hv.
  pose proof (decimal_value_bounds s Hs) as Hbs.
  pose proof (decimal_value_bounds t Ht) as Hbt.
  apply decimal_same_length_unique; auto; [| congruence].
  pose proof (len_nonneg s). pose proof (len_nonneg t).
  assert (len s = len t); [| unfold len in *; lia].
  rewrite Hvs in Hbs. rewrite Hvt in Hbt.
  destruct (Z.lt_trichotomy (len s) (len t)) as [H1 | [H1 | H1]];
    [exfalso | assumption | exfalso].
  - assert (10 ^ len s <= 10 ^ (len t - 1))
      by (apply Z.pow_le_mono_r; lia). lia.
  - assert (10 ^ len t <= 10 ^ (len s - 1))
      by (apply Z.pow_le_mono_r; lia). lia.
Qed.

Lemma drop_zeros_spec (s : str) :
  Forall is_decimal_digit s ->
  Forall is_decimal_digit (drop_zeros s)
  /\ decimal_value (drop_zeros s) = decimal_value s
  /\ (drop_zeros s <> [] ->
      10 ^ (len (drop_zeros s) - 1) <= decimal_value s).
Proof.
  unfold decimal_value.
  induction s as [| c s IH]; intros Hs.
  { split; [constructor | split; [reflexivity |]].
    intros H. now contradiction H. }
  inversion Hs as [| ? ? Hc Hs']; subst. cbn [drop_zeros].
  destruct (Ascii.eqb c "0") eqn:E.
  - apply Ascii.eqb_eq in E. subst c.
    destruct (IH Hs') as (Hd & Hv & Hl).
    rewrite digits_value_cons by lia.
    change (decimal_digit_value "0") with 0. rewrite Z.mul_0_l, Z.add_0_l.
    auto.
  - split; [assumption |]. split; [reflexivity |]. intros _.
    rewrite digits_value_cons, len_cons by lia.
    replace (len s + 1 - 1) with (len s) by lia.
    pose proof (decimal_digit_value_range c Hc) as Hr.
    assert (decimal_digit_value c <> 0).
    { intros Hz. apply Ascii.eqb_neq in E. apply E.
      apply decimal_digit_value_inj. now rewrite Hz. }
    pose proof (decimal_value_bounds s Hs') as Hb.
    unfold decimal_value in Hb. nia.
Qed.

(** Printing the number that a string of decimal digits denotes gives the
    string back without its leading zeros. *)
Lemma decimal_str_value (s : str) :
  Forall is_decimal_digit s ->
  decimal_str (decimal_value s) = without_leading_zeros s.
Proof.
  intros Hs. destruct (drop_zeros_spec s Hs) as (Hd & Hv & Hl).
  pose proof (decimal_value_bounds s Hs) as [Hnn _].
  unfold without_leading_zeros, decimal_str.
  destruct (drop_zeros s) as [| c t] eqn:E.
  - unfold decimal_value in Hv at 1. rewrite digits_value_nil in Hv.
    now rewrite <- Hv.
  - specialize (Hl ltac:(discriminate)).
    assert (Hp1 : 0 < 10 ^ (len (c :: t) - 1)).
    { apply Z.pow_pos_nonneg; [lia |]. rewrite len_cons.
      pose proof (len_nonneg t). lia. }
    destruct (decimal_value s =? 0) eqn:E0; [apply Z.eqb_eq in E0; lia |].
    destruct (decimal_value s <? 0) eqn:E1; [apply Z.ltb_lt in E1; lia |].
    destruct (decimal_loop_spec (decimal_value s) Hnn [])
      as (ds & Hrun & Hds & Hval & _ & Hlow).
    rewrite app_nil_r in Hrun. rewrite Hrun.
    apply (decimal_numeral_unique ds (c :: t) (decimal_value s)); auto; lia.
Qed.

Lemma bit_is_decimal (s : str) : Forall is_bit s -> Forall is_decimal_digit s.
Proof.
  intros H. eapply Forall_impl; [| exact H].
  intros c [-> | ->]; cbn; tauto.
Qed.

Lemma decimal_digits_value (s : str) :
  Forall is_decimal_digit s ->
  forall acc : Z,
    decimal_digits s acc = Some (acc * 10 ^ len s + decimal_value s).
Proof.
  unfold decimal_value.
  induction s as [| c s IH]; intros Hs acc.
  - cbn. f_equal. lia.
  - inversion Hs as [| ? ? Hc Hs']; subst. cbn [decimal_digits].
    pose proof (decimal_digit_value_range c Hc) as Hr.
    unfold decimal_digit_value in Hr.
    destruct (0 <=? Z.of_nat (nat_of_ascii c) - 48) eqn:E1;
      [| apply Z.leb_gt in E1; lia].
    destruct (Z.of_nat (nat_of_ascii c) - 48 <=? 9) eqn:E2;
      [| apply Z.leb_gt in E2; lia].
    cbn [andb]. rewrite IH by assumption. f_equal.
    rewrite digits_value_cons, len_cons by lia.
    rewrite Z.pow_add_r, Z.pow_1_r by (pose proof (len_nonneg s); lia).
    unfold decimal_digit_value. lia.
Qed.

Lemma decimal_int_bits (s : str) :
  s <> [] -> Forall is_bit s -> decimal_int s = Some (decimal_value s).
Proof.
  intros Hne Hs. destruct s as [| c s]; [congruence |].
  unfold decimal_int.
  assert (Hc : is_bit c) by (now inversion Hs).
  assert (Em : Ascii.eqb c "-" = false) by (destruct Hc as [-> | ->]; reflexivity).
  assert (Ep : Ascii.eqb c "+" = false) by (destruct Hc as [-> | ->]; reflexivity).
  rewrite Em, Ep.
  rewrite (decimal_digits_value _ (bit_is_decimal _ Hs) 0). f_equal; lia.
Qed.

Section ReportColumns.

Variable basename : str -> str.
Variable splitext : str -> str * str.
Variable str_of_int : Z -> str.
Variable int_of_str : str -> option Z.

(** The BIN column is not the binary string itself: the string goes
    through [int] and back, read as a decimal number.  When [int] reads
    digit strings in base 10 and the f-string prints non-negative integers
    in base 10, the column shows the binary string without its leading
    zeros. *)
Theorem format_conversion_bin_column (self : NumberConverter) :
  (forall s : str,
     s <> [] -> Forall is_bit s -> int_of_str s = Some (decimal_value s)) ->
  (forall z : Z, 0 <= z -> str_of_int z = decimal_str z) ->
  exists (header : str) (rows : list str),
    format_conversion_for_display basename splitext str_of_int int_of_str self
    = (Ok (header :: rows), self)
    /\ forall (k : nat) (d : Z),
         nth_error (data self) k = Some d ->
         exists b h : str,
           convert_to_binary d default_bits self = (Ok b, self)
           /\ convert_to_hex d self = (Ok h, self)
           /\ nth_error rows k
              = Some (join [str_of_int (Z.of_nat k + 1); [tab];
                            str_of_int d; [tab];
                            without_leading_zeros b; [tab]; h]).
Proof.
  intros Hparse Hstr.
  assert (Hacc : forall s : str,
             s <> [] -> Forall is_bit s -> int_of_str s <> None)
    by (intros s Hne Hs; rewrite (Hparse s Hne Hs); discriminate).
  destruct (format_conversion_spec basename splitext str_of_int int_of_str
              self Hacc) as (rows & Hrun & _ & Hnth).
  eexists. exists rows. split; [exact Hrun |].
  intros k d Hd. destruct (Hnth k d Hd) as (b & h & z & Hb & Hh & Hz & Hk).
  exists b, h. repeat split; auto. rewrite Hk.
  destruct (stateless_convert_to_binary d default_bits) as [rb Hrb].
  destruct (transform_loop_spec [d] self) as (conv & Hconv & Hall).
  inversion Hall as [| ? row ? ? (b' & h' & -> & Hne & Hbits & Hb' & _) _];
    subst.
  rewrite Hb in Hb'. injection Hb' as <-.
  rewrite (Hparse b Hne Hbits) in Hz. injection Hz as <-.
  rewrite (Hstr (decimal_value b))
    by (apply decimal_value_bounds, bit_is_decimal, Hbits).
  now rewrite (decimal_str_value b (bit_is_decimal _ Hbits)).
Qed.

End ReportColumns.

Lemma format_conversion_rows_witness :
  exists rows : list str,
    format_conversion_for_display
      (fun p => p) (fun p => (p, [])) decimal_str decimal_int
      (mkNumberConverter (lit "TC1") [5; -1000] [])
    = (Ok (join [lit "NUMBER"; [tab]; lit "TC1"; [tab]; lit "BIN"; [tab];
                 lit "HEX"] :: rows),
       mkNumberConverter (lit "TC1") [5; -1000] [])
    /\ length rows = 2%nat.
Proof.
  destruct (format_conversion_rows
              (fun p => p) (fun p => (p, [])) decimal_str decimal_int
              (mkNumberConverter (lit "TC1") [5; -1000] []))
    as (rows & Hrun & Hlen & _).
  - intros s Hne Hs. rewrite (decimal_int_bits s Hne Hs). discriminate.
  - exists rows. split; [exact Hrun | exact Hlen].
Defined.

Lemma format_conversion_bin_column_witness :
  exists (header : str) (rows : list str),
    format_conversion_for_display
      (fun p => p) (fun p => (p, [])) decimal_str decimal_int
      (mkNumberConverter (lit "TC1") [5; -1000] [])
    = (Ok (header :: rows), mkNumberConverter (lit "TC1") [5; -1000] [])
    /\ exists b h : str,
         convert_to_binary (-1000) default_bits
                           (mkNumberConverter (lit "TC1") [5; -1000] [])
         = (Ok b, mkNumberConverter (lit "TC1") [5; -1000] [])
         /\ convert_to_hex (-1000)
                           (mkNumberConverter (lit "TC1") [5; -1000] [])
            = (Ok h, mkNumberConverter (lit "TC1") [5; -1000] [])
         /\ nth_error rows 1
            = Some (join [decimal_str 2; [tab]; decimal_str (-1000); [tab];
                          without_leading_zeros b; [tab]; h]).
Proof.
  destruct (format_conversion_bin_column
              (fun p => p) (fun p => (p, [])) decimal_str decimal_int
              (mkNumberConverter (lit "TC1") [5; -1000] []))
    as (header & rows & Hrun & Hnth).
  - exact decimal_int_bits.
  - reflexivity.
  - exists header, rows. split; [exact Hrun |].
    exact (Hnth 1%nat (-1000) eq_refl).
Defined.

Example format_conversion_example :
  fst (format_conversion_for_display
         (fun p => p) (fun p => (p, [])) decimal_str decimal_int
         (mkNumberConverter (lit "TC1") [5; -1000] []))
  = Ok [lit "NUMBER" ++ [tab] ++ lit "TC1" ++ [tab] ++ lit "BIN" ++ [tab]
          ++ lit "HEX";
        lit "1" ++ [tab] ++ lit "5" ++ [tab] ++ lit "101" ++ [tab]
          ++ lit "5";
        lit "2" ++ [tab] ++ lit "-1000" ++ [tab] ++ lit "11000" ++ [tab]
          ++ lit "FFFFFFFC18"].
Proof. vm_compute. reflexivity. Qed.
